(** * Employee performance report: ingestion and aggregation

    A shallow embedding of [main.py]: [read_employees] (CSV ingestion with
    header validation) and [performance_report] (average performance per
    position, sorted for display), together with the Python built-ins the
    two functions call.

    Conventions.
    - A Python [str] is a Rocq [string] holding its UTF-8 encoding; the
      byte-wise lexicographic order of UTF-8 is the code-point order that
      Python compares strings with.
    - A Python [float] is a primitive binary64 [float].
    - A Python [int] is a [Z].
    - An exception is a value of [exn]; a function that may raise returns
      [exn + A].
    - The file system is a function from paths to what [open] and
      [csv.reader] give for them.
    - [float(s)] on a [str] is a parameter of [performance_report], and
      [repr] is a parameter of the messages. [PyFloat.of_ascii] and
      [PyStr.repr] model them on ASCII text and are used where a concrete
      input is evaluated. *)

From Stdlib Require Import ZArith Lia List String Ascii Floats Bool.
From Stdlib Require Import Sorting.Permutation Sorting.Sorted FinFun.
From stdpp Require Import gmap strings.
Import ListNotations.

Set Warnings "-inexact-float".

Local Open Scope string_scope.
Local Open Scope Z_scope.
Local Open Scope list_scope.

(** ** Python strings *)

Module PyStr.

Definition code (c : ascii) : N := N_of_ascii c.

(** One-byte whitespace: U+0009..U+000D, U+001C..U+0020. *)
Definition is_space1 (c : ascii) : bool :=
  let n := code c in
  ((9 <=? n) && (n <=? 13) || (28 <=? n) && (n <=? 32))%N.

(** Two-byte whitespace: U+0085 and U+00A0. *)
Definition is_space2 (c d : ascii) : bool :=
  ((code c =? 194) && ((code d =? 133) || (code d =? 160)))%N.

(** Three-byte whitespace: U+1680, U+2000..U+200A, U+2028, U+2029,
    U+202F, U+205F, U+3000. *)
Definition is_space3 (c d e : ascii) : bool :=
  let '(x, y, z) := (code c, code d, code e) in
  ((x =? 225) && (y =? 154) && (z =? 128)
   || (x =? 226) && (y =? 128)
      && ((128 <=? z) && (z <=? 138) || (z =? 168) || (z =? 169) || (z =? 175))
   || (x =? 226) && (y =? 129) && (z =? 159)
   || (x =? 227) && (y =? 128) && (z =? 128))%N.

(** Drops the whitespace characters at the front of [s]. With
    [backwards] the string is read from its end, so that the bytes of a
    character arrive last byte first. *)
Fixpoint drop_space (backwards : bool) (s : string) : string :=
  match s with
  | EmptyString => EmptyString
  | String c s1 =>
      if is_space1 c then drop_space backwards s1
      else
        match s1 with
        | String d s2 =>
            if (if backwards then is_space2 d c else is_space2 c d)
            then drop_space backwards s2
            else
              match s2 with
              | String e s3 =>
                  if (if backwards then is_space3 e d c else is_space3 c d e)
                  then drop_space backwards s3
                  else s
              | EmptyString => s
              end
        | EmptyString => s
        end
  end.

Definition reverse (s : string) : string :=
  string_of_list_ascii (List.rev (list_ascii_of_string s)).

Definition lstrip (s : string) : string := drop_space false s.
Definition rstrip (s : string) : string := reverse (drop_space true (reverse s)).

(** [str.strip()] with no argument. *)
Definition strip (s : string) : string := rstrip (lstrip s).

(** [sep.join(parts)]. *)
Definition join (sep : string) (parts : list string) : string :=
  String.concat sep parts.

(** [s < t] on [str]. *)
Definition lt (s t : string) : bool := String.ltb s t.

(** *** [repr(s)]

    The quote is the apostrophe, unless the string holds an apostrophe
    and no double quote, in which case it is the double quote. The quote
    and the backslash are escaped, tab, newline and carriage return are
    written as backslash and t, n or r, and another control character of
    ASCII as backslash, x and two hexadecimal digits. The bytes of a
    character beyond ASCII are copied, which is what [repr] does for a
    printable character. *)

Definition contains (c : ascii) (s : string) : bool :=
  existsb (Ascii.eqb c) (list_ascii_of_string s).

Definition hex_digit (n : N) : ascii :=
  match String.get (N.to_nat n) "0123456789abcdef" with
  | Some c => c
  | None => "0"%char
  end.

Definition escape (quote c : ascii) : string :=
  let n := code c in
  if Ascii.eqb c quote || (n =? 92)%N then String "092" (String c "")
  else if (n =? 9)%N then String "092" "t"
  else if (n =? 10)%N then String "092" "n"
  else if (n =? 13)%N then String "092" "r"
  else if (n <? 32)%N || (n =? 127)%N then
    String "092" (String "x" (String (hex_digit (n / 16)) (String (hex_digit (n mod 16)) "")))
  else String c "".

Definition repr (s : string) : string :=
  let quote : ascii :=
    if contains "'" s && negb (contains "034" s) then "034"%char else "'"%char in
  String quote
    (String.concat "" (map (escape quote) (list_ascii_of_string s))
     +:+ String quote "").

End PyStr.

(** ** Sorting

    [list.sort] and [sorted] are stable and decide with [<] alone. They are
    modelled by the stable insertion sort: the new element goes in front of
    the first element that is not smaller than it. Where [<] is the strict
    part of a total order of the elements, a list has one sorted
    arrangement and every sort returns it ([sorted_unique] below). On a
    list of two elements the model makes the one comparison that
    [list.sort] makes, whatever [<] answers. Where [<] is not the strict
    part of a total order (a key that holds a NaN) and the list has more
    than two elements, what [list.sort] returns depends on the comparisons
    that its merge sort happens to make, and it can differ from what the
    insertion sort returns. In that case the model says which elements
    the result has and not how they are arranged: what is proved below of
    an arrangement is proved of lists without NaN or of two elements. *)

Section Sort.
Context {A : Type} (lt : A -> A -> bool).

Fixpoint insort (x : A) (l : list A) : list A :=
  match l with
  | [] => [x]
  | y :: l' => if lt y x then y :: insort x l' else x :: l
  end.

Fixpoint sort (l : list A) : list A :=
  match l with
  | [] => []
  | x :: l' => insort x (sort l')
  end.
End Sort.

(** [sorted(xs)] on a collection of strings. *)
Definition sorted (xs : list string) : list string := sort PyStr.lt xs.

(** ** Python floats *)

Module PyFloat.

Definition prec : Z := 53.
Definition emax : Z := 1024.

(** The binary64 value nearest to [n / d] (ties to even), for [0 <= n]
    and [0 < d], with sign [neg]. The quotient is computed with at least
    [prec + 1] bits and the position of the remainder against half of
    [d] is handed to the rounding of [SpecFloat]. *)
Definition nearest (neg : bool) (n d : Z) : spec_float :=
  if n =? 0 then S754_zero neg
  else
    let sh := Z.max 0 (prec + 2 + Z.log2 d - Z.log2 n) in
    let n' := Z.shiftl n sh in
    let q := n' / d in
    let r := n' mod d in
    let loc := if r =? 0 then loc_Exact else loc_Inexact (2 * r ?= d) in
    binary_round_aux prec emax neg q (- sh) loc.

(** [float(count)] for an [int]. *)
Definition of_int (z : Z) : float :=
  SF2Prim (nearest (z <? 0) (Z.abs z) 1).

(** [n / d] rounded to an integer, ties to even ([0 <= n], [0 < d]). *)
Definition div_half_even (n d : Z) : Z :=
  let q := n / d in
  match 2 * (n mod d) ?= d with
  | Lt => q
  | Gt => q + 1
  | Eq => if Z.even q then q else q + 1
  end.

(** [round(x, 2)]: NaN and the infinities round to themselves; a finite
    [x] is rounded, from its exact value, to the nearest multiple of
    1/100 (ties to even), and that decimal is converted back to the
    nearest float. The sign of [x] is kept. *)
Definition round2 (x : float) : float :=
  match Prim2SF x with
  | S754_finite neg m e =>
      let hundredths :=
        if 0 <=? e then 100 * Z.pos m * 2 ^ e
        else div_half_even (100 * Z.pos m) (2 ^ (- e)) in
      SF2Prim (nearest neg hundredths 100)
  | _ => x
  end.

(** *** [float(s)] on ASCII text

    [of_ascii] follows CPython's conversion of a string of ASCII
    characters: surrounding whitespace is dropped, single underscores
    may separate digits, [inf], [infinity] and [nan] are accepted in any
    letter case and with a sign, and a decimal numeral is rounded to the
    nearest float (overflow gives an infinity).  [None] stands for
    [ValueError]. *)

Definition is_c_space (c : ascii) : bool :=
  let n := N_of_ascii c in ((9 <=? n) && (n <=? 13) || (n =? 32))%N.

Definition is_digit (c : ascii) : bool :=
  let n := N_of_ascii c in ((48 <=? n) && (n <=? 57))%N.

Definition digit_val (c : ascii) : Z := Z.of_N (N_of_ascii c) - 48.

Definition lower (c : ascii) : ascii :=
  let n := N_of_ascii c in
  if ((65 <=? n) && (n <=? 90))%N then ascii_of_N (n + 32) else c.

Fixpoint drop_while (p : ascii -> bool) (l : list ascii) : list ascii :=
  match l with
  | c :: l' => if p c then drop_while p l' else l
  | [] => []
  end.

Definition trim (l : list ascii) : list ascii :=
  rev (drop_while is_c_space (rev (drop_while is_c_space l))).

(** Removes the underscores; [None] unless every underscore stands
    between two digits. [prev] is the character before [l]. *)
Fixpoint strip_underscores (prev : ascii) (l : list ascii) : option (list ascii) :=
  match l with
  | [] => if Ascii.eqb prev "_" then None else Some []
  | c :: l' =>
      if Ascii.eqb c "_" then
        if is_digit prev then strip_underscores c l' else None
      else if Ascii.eqb prev "_" && negb (is_digit c) then None
      else option_map (cons c) (strip_underscores c l')
  end.

(** Splits off the longest prefix of digits, read as a number. *)
Fixpoint digits (acc : Z) (n : nat) (l : list ascii) : Z * nat * list ascii :=
  match l with
  | c :: l' =>
      if is_digit c then digits (10 * acc + digit_val c) (S n) l'
      else (acc, n, l)
  | [] => (acc, n, l)
  end.

Definition sign (l : list ascii) : bool * list ascii :=
  match l with
  | "-"%char :: l' => (true, l')
  | "+"%char :: l' => (false, l')
  | _ => (false, l)
  end.

(** The exponent part, when [l] is one. *)
Definition exponent (l : list ascii) : option Z :=
  match l with
  | [] => Some 0
  | c :: l' =>
      if Ascii.eqb (lower c) "e" then
        let '(neg, l'') := sign l' in
        match digits 0 0 l'' with
        | (_, O, _) => None
        | (v, _, []) => Some (if neg then - v else v)
        | _ => None
        end
      else None
  end.

Definition decimal (neg : bool) (l : list ascii) : option float :=
  let '(i, ni, l1) := digits 0 0 l in
  let '(m, nf, l2) :=
    match l1 with
    | "."%char :: l1' => digits i 0 l1'
    | _ => (i, O, l1)
    end in
  match (ni + nf)%nat, exponent l2 with
  | O, _ | _, None => None
  | _, Some x =>
      let e := x - Z.of_nat nf in
      Some (SF2Prim (if 0 <=? e then nearest neg (m * 10 ^ e) 1
                     else nearest neg m (10 ^ (- e))))
  end.

Definition of_ascii (s : string) : option float :=
  match strip_underscores "000" (trim (list_ascii_of_string s)) with
  | None => None
  | Some l =>
      let '(neg, body) := sign l in
      let word := string_of_list_ascii (map lower body) in
      if String.eqb word "inf" || String.eqb word "infinity"
      then Some (if neg then neg_infinity else infinity)
      else if String.eqb word "nan" then Some nan
      else decimal neg body
  end.

End PyFloat.

(** ** Dictionaries in insertion order

    [totals] is iterated with [items()], so the order in which its keys
    were first set is part of the result: an association list without
    repeated keys, where setting a present key keeps its place. *)

Module Dict.
Section Dict.
Context {V : Type}.

Definition t : Type := list (string * V).

Fixpoint get (k : string) (d : t) : option V :=
  match d with
  | [] => None
  | (k', v) :: d' => if String.eqb k k' then Some v else get k d'
  end.

Fixpoint set (k : string) (v : V) (d : t) : t :=
  match d with
  | [] => [(k, v)]
  | (k', v') :: d' =>
      if String.eqb k k' then (k, v) :: d' else (k', v') :: set k v d'
  end.

Definition keys (d : t) : list string := map fst d.
End Dict.
Arguments t : clear implicits.
End Dict.

(** ** Data model *)

(** One row of a file as [csv.DictReader] yields it. The header's names
    map to the cells of the row, or to [None] where the row is short; the
    cells beyond the header, when there are any, are kept under the key
    [None] ([restkey]). *)
Record EmployeeRecord : Type := {
  fields : gmap string (option string);
  restkey : option (list string)
}.

(** [row.get(key)]: [None] for an absent key and for a [None] value. *)
Definition get (row : EmployeeRecord) (key : string) : option string :=
  match fields row !! key with
  | Some v => v
  | None => None
  end.

(** An element of a report row: a position name or an average. *)
Inductive pyobj : Type :=
| Text (s : string)
| Number (x : float).

Record ReportResult : Type := {
  headers : list string;
  rows : list (list pyobj)
}.

(** The five [raise ReportError(...)] statements of the program. *)
Inductive ReportError : Type :=
| MissingHeader (path : string)
| MissingColumns (path : string) (missing_str : string)
| FileNotFound (path : string)
| EmptyDataset
| NoValidData.

(** What a call can raise: [ReportError]; an error of [open] other than
    [FileNotFoundError] ([PermissionError], [IsADirectoryError] and the
    like), which [read_employees] does not catch; an error raised while
    an open file is read ([UnicodeDecodeError], [csv.Error]), which it
    does not catch either; or a [TypeError] of the sort key. *)
Inductive exn : Type :=
| Raise (e : ReportError)
| OSError (path : string)
| ReadError (path : string)
| TypeError.

(** The message each [ReportError] is raised with; [repr] is Python's
    [repr] on [str] (the [!r] of the f-strings). *)
Definition message (repr : string -> string) (e : ReportError) : string :=
  match e with
  | MissingHeader path =>
      "Файл " +:+ repr path +:+ " не содержит заголовков."
  | MissingColumns path missing_str =>
      "В файле " +:+ repr path +:+ " отсутствуют обязательные колонки: " +:+ missing_str
  | FileNotFound path =>
      "Файл " +:+ repr path +:+ " не найден."
  | EmptyDataset =>
      "Во всех файлах нет данных (только заголовки)."
  | NoValidData =>
      "Не удалось вычислить эффективность: нет валидных данных."
  end.

(** ** Files

    What [open(path)] followed by [csv.reader] gives: the file is absent
    ([FileNotFoundError]), it cannot be opened for another reason (no
    permission, a directory), it is read to its end as a sequence of rows
    of cells, a blank line being the row [[]], or the reader yields some
    rows and then raises (text that is not UTF-8, a field that [csv]
    refuses). How the reader splits the text of a file into rows and cells
    is not modelled. *)

Inductive file : Type :=
| Absent
| Unreadable
| Rows (rows : list (list string))
| Broken (rows : list (list string)).

Definition filesystem : Type := string -> file.

Module DictReader.

(** [reader.fieldnames]: the first row, [None] for a file without rows. *)
Definition fieldnames (rows : list (list string)) : option (list string) :=
  match rows with
  | [] => None
  | names :: _ => Some names
  end.

Definition is_blank (row : list string) : bool :=
  match row with
  | [] => true
  | _ :: _ => false
  end.

(** The rows after the header that the reader does not skip. *)
Definition data_rows (rows : list (list string)) : list (list string) :=
  List.filter (fun row => negb (is_blank row)) (tl rows).

(** [d[k] = v] for a cell, and [d[k] = None] ([restval]). *)
Definition put_cell (d : gmap string (option string)) (kv : string * string)
  : gmap string (option string) :=
  let '(k, v) := kv in <[k := Some v]> d.

Definition put_none (d : gmap string (option string)) (k : string)
  : gmap string (option string) :=
  <[k := None]> d.

(** [dict(zip(fieldnames, row))], then [restkey] or [restval]. *)
Definition record (names row : list string) : EmployeeRecord :=
  let d := fold_left put_cell (combine names row) ∅ in
  let lf := length names in
  let lr := length row in
  if (lf <? lr)%nat then
    {| fields := d; restkey := Some (skipn lf row) |}
  else
    {| fields := fold_left put_none (skipn lr names) d; restkey := None |}.

(** All the records of one file, [names] being its header. *)
Definition records (names : list string) (rows : list (list string))
  : list EmployeeRecord :=
  map (record names) (data_rows rows).

End DictReader.

(** ** [read_employees] *)

Definition required_columns : list string := ["position"; "performance"].

(** [required_columns - set(reader.fieldnames)] *)
Definition missing_columns (names : list string) : list string :=
  List.filter (fun c => negb (existsb (String.eqb c) names)) required_columns.

(** The body of [for path in files]: the records of one file, or the
    exception that leaves the loop. *)
Definition read_file (fs : filesystem) (path : string) : exn + list EmployeeRecord :=
  match fs path with
  | Absent => inl (Raise (FileNotFound path))
  | Unreadable => inl (OSError path)
  | Rows rows =>
      match DictReader.fieldnames rows with
      | None | Some [] => inl (Raise (MissingHeader path))
      | Some names =>
          match missing_columns names with
          | [] => inr (DictReader.records names rows)
          | missing =>
              let missing_str := PyStr.join ", " (sorted missing) in
              inl (Raise (MissingColumns path missing_str))
          end
      end
  | Broken rows =>
      (* The reader raises where it is asked for the row after [rows]:
         at [reader.fieldnames] when [rows] is empty, in the loop over
         the rows otherwise, which the header checks come before. *)
      match DictReader.fieldnames rows with
      | None => inl (ReadError path)
      | Some [] => inl (Raise (MissingHeader path))
      | Some names =>
          match missing_columns names with
          | [] => inl (ReadError path)
          | missing =>
              let missing_str := PyStr.join ", " (sorted missing) in
              inl (Raise (MissingColumns path missing_str))
          end
      end
  end.

(** The loop, with [employees] as its state. *)
Fixpoint read_files (fs : filesystem) (files : list string)
    (employees : list EmployeeRecord) : exn + list EmployeeRecord :=
  match files with
  | [] => inr employees
  | path :: files' =>
      match read_file fs path with
      | inl e => inl e
      | inr rows => read_files fs files' (employees ++ rows)
      end
  end.

Definition read_employees (fs : filesystem) (files : list string)
  : exn + list EmployeeRecord :=
  match read_files fs files [] with
  | inl e => inl e
  | inr [] => inl (Raise EmptyDataset)
  | inr employees => inr employees
  end.

(** ** [performance_report] *)

(** [(-row[1], row[0])]: defined on a row that holds a number at index 1
    and a name at index 0. *)
Definition sort_key (row : list pyobj) : option (float * string) :=
  match nth_error row 1, nth_error row 0 with
  | Some (Number x), Some (Text s) => Some ((- x)%float, s)
  | _, _ => None
  end.

(** [<] on the key tuples: the first components decide unless they are
    [==], in which case the names decide. *)
Definition key_lt (k1 k2 : float * string) : bool :=
  if (fst k1 =? fst k2)%float then PyStr.lt (snd k1) (snd k2)
  else (fst k1 <? fst k2)%float.

(** The keys of all rows, computed before any comparison. *)
Fixpoint decorate (l : list (list pyobj))
  : option (list ((float * string) * list pyobj)) :=
  match l with
  | [] => Some []
  | row :: l' =>
      match sort_key row, decorate l' with
      | Some k, Some d => Some ((k, row) :: d)
      | _, _ => None
      end
  end.

(** [rows.sort(key=lambda row: (-row[1], row[0]))] *)
Definition sort_rows (l : list (list pyobj)) : option (list (list pyobj)) :=
  option_map
    (fun d => map snd (sort (fun a b => key_lt (fst a) (fst b)) d))
    (decorate l).

Section Report.

(** [float(s)] for a [str]; [None] stands for [ValueError]. *)
Variable float_of_str : string -> option float.

(** What one record adds: its position name and its performance, or
    [None] where the loop body reaches a [continue]. *)
Definition entry (row : EmployeeRecord) : option (string * float) :=
  match get row "position", get row "performance" with
  | Some position_raw, Some performance_raw =>
      let position := PyStr.strip position_raw in
      if String.eqb position "" then None
      else
        match float_of_str performance_raw with
        | None => None
        | Some performance => Some (position, performance)
        end
  | _, _ => None
  end.

(** The body of [for row in employees], with [totals] as its state. *)
Definition accumulate (totals : Dict.t (float * Z)) (row : EmployeeRecord)
  : Dict.t (float * Z) :=
  match entry row with
  | None => totals
  | Some (position, performance) =>
      let '(total, count) :=
        match Dict.get position totals with
        | Some tc => tc
        | None => (0%float, 0)
        end in
      Dict.set position ((total + performance)%float, count + 1) totals
  end.

(** [[position, round(total / count, 2)]] *)
Definition make_row (item : string * (float * Z)) : list pyobj :=
  let '(position, (total, count)) := item in
  let avg := (total / PyFloat.of_int count)%float in
  [Text position; Number (PyFloat.round2 avg)].

Definition performance_report (employees : list EmployeeRecord)
  : exn + ReportResult :=
  let totals := fold_left accumulate employees [] in
  match totals with
  | [] => inl (Raise NoValidData)
  | _ :: _ =>
      match sort_rows (map make_row totals) with
      | None => inl TypeError
      | Some rows => inr {| headers := ["position"; "performance"]; rows := rows |}
      end
  end.

End Report.

(** ** The registry of reports and the command line

    [argparse] and [tabulate] are libraries: what [parse_args] answers,
    the usage line and the program name of the parser, and the table that
    [tabulate] draws are parameters. A run of [main] ends in one of three
    ways: it returns, having printed to the standard output; it leaves by
    [SystemExit] with a status, having printed to the standard error; or
    an exception that nothing catches leaves it. *)

Module Namespace.
(** The arguments as [parse_args] returns them. *)
Record t : Type := { files : list string; report : string }.
End Namespace.

(** What [generate_report] can raise: what the two stages raise, or the
    [KeyError] of [REPORTS[args.report]]. *)
Inductive raised : Type :=
| Raised (e : exn)
| KeyError (key : string).

Inductive outcome : Type :=
| Returned (stdout : string)
| SystemExit (status : Z) (stderr : string)
| Uncaught (e : raised).

(** An argument of the parser, as [add_argument] declares it. *)
Record Argument : Type := {
  flag : string;
  nargs : option string;
  required : bool;
  metavar : option string;
  choices : option (list string);
  help : string
}.

Record ArgumentParser : Type := {
  description : string;
  arguments : list Argument
}.

(** [range(a, b)] *)
Definition range (a b : Z) : list Z :=
  map (fun i => a + Z.of_nat i) (seq 0 (Z.to_nat (b - a))).

Definition newline : string := String "010" "".

Section Cli.

Variable float_of_str : string -> option float.
Variable repr : string -> string.

(** [parser.parse_args(argv)]: the arguments, or the way [argparse] ends
    the run (usage error, help). *)
Variable parse_args : list string -> outcome + Namespace.t.

(** [parser.format_usage()] and [parser.prog]. *)
Variable format_usage : string.
Variable prog : string.

(** [tabulate(rows, headers=headers, showindex=index, tablefmt="simple",
    floatfmt=".2f")] *)
Variable tabulate : list (list pyobj) -> list string -> list Z -> string.

Definition REPORTS : Dict.t (list EmployeeRecord -> exn + ReportResult) :=
  [("performance", performance_report float_of_str)].

Definition create_parser : ArgumentParser :=
  {| description := "Формирование отчётов по данным из csv-файлов сотрудников.";
     arguments :=
       [{| flag := "--files"; nargs := Some "+"; required := true;
           metavar := Some "PATH"; choices := None;
           help := "пути к csv-файлам с данными сотрудников" |};
        {| flag := "--report"; nargs := None; required := true;
           metavar := None; choices := Some (sorted (Dict.keys REPORTS));
           help := "название отчёта (например: performance)" |}] |}.

Definition generate_report (fs : filesystem) (args : Namespace.t)
  : raised + ReportResult :=
  match read_employees fs (Namespace.files args) with
  | inl e => inl (Raised e)
  | inr employees =>
      match Dict.get (Namespace.report args) REPORTS with
      | None => inl (KeyError (Namespace.report args))
      | Some report_func =>
          match report_func employees with
          | inl e => inl (Raised e)
          | inr result => inr result
          end
      end
  end.

(** What [print_report] prints. *)
Definition print_report (result : ReportResult) : string :=
  let index := range 1 (Z.of_nat (length (rows result)) + 1) in
  let table := tabulate (rows result) (headers result) index in
  table +:+ newline.

(** [parser.error(message)]: the usage line and the message on the
    standard error, and the exit status 2. *)
Definition parser_error (msg : string) : outcome :=
  SystemExit 2 (format_usage +:+ prog +:+ ": error: " +:+ msg +:+ newline).

Definition main (fs : filesystem) (argv : list string) : outcome :=
  match parse_args argv with
  | inl o => o
  | inr args =>
      match generate_report fs args with
      | inl (Raised (Raise exc)) => parser_error (message repr exc)
      | inl e => Uncaught e
      | inr result => Returned (print_report result)
      end
  end.

End Cli.

(** * Specification *)

(** ** The aggregation as the specification words it

    A record is skipped when a field is absent, when its position is
    blank once trimmed, or when its performance does not parse. The
    average of a position is the sum of the parsed performances of its
    records that are not skipped, taken in the order of the records and
    started from [0.0], divided by their number and rounded to two
    decimals. *)

Section AggregationSpec.

Variable float_of_str : string -> option float.

Definition skipped (row : EmployeeRecord) : bool :=
  match get row "position", get row "performance" with
  | Some position, Some performance =>
      String.eqb (PyStr.strip position) ""
      || match float_of_str performance with Some _ => false | None => true end
  | _, _ => true
  end.

(** The position key of a record that is not skipped. *)
Definition position_of (row : EmployeeRecord) : option string :=
  if skipped row then None else option_map PyStr.strip (get row "position").

(** The parsed performance of a record that is not skipped and whose
    position key is [p]. *)
Definition performance_of (p : string) (row : EmployeeRecord) : option float :=
  match position_of row with
  | Some q => if String.eqb q p then get row "performance" ≫= float_of_str else None
  | None => None
  end.

Definition performances (p : string) (employees : list EmployeeRecord) : list float :=
  omap (performance_of p) employees.

Definition fsum (xs : list float) : float := fold_left PrimFloat.add xs 0%float.

Definition average (p : string) (employees : list EmployeeRecord) : float :=
  let xs := performances p employees in
  PyFloat.round2 (fsum xs / PyFloat.of_int (Z.of_nat (length xs)))%float.

(** The distinct position keys. *)
Definition positions (employees : list EmployeeRecord) : list string :=
  remove_dups (omap position_of employees).

Definition expected_row (employees : list EmployeeRecord) (p : string) : list pyobj :=
  [Text p; Number (average p employees)].

(** The state of the loop of [performance_report] at its end. *)
Definition totals_of (employees : list EmployeeRecord) : Dict.t (float * Z) :=
  fold_left (accumulate float_of_str) employees [].

End AggregationSpec.

(** ** Rows and their order *)

(** A row as [make_row] builds it. *)
Definition is_report_row (row : list pyobj) : Prop :=
  exists p x, row = [Text p; Number x].

(** The order of the report.

    [precedes r1 r2]: the average of [r1] is greater, or the averages are
    equal and the name of [r1] is not after the name of [r2]. *)

Definition precedes (r1 r2 : list pyobj) : bool :=
  match r1, r2 with
  | [Text p1; Number a1], [Text p2; Number a2] =>
      (a2 <? a1)%float || ((a1 =? a2)%float && String.leb p1 p2)
  | _, _ => false
  end.

Definition sorted_report (rows : list (list pyobj)) : Prop :=
  StronglySorted (fun r1 r2 => precedes r1 r2 = true) rows.

(** [precedes] is a total order on the rows of [rows]. *)
Definition total_order_on (rows : list (list pyobj)) : Prop :=
  (forall r, In r rows -> precedes r r = true) /\
  (forall r1 r2, In r1 rows -> In r2 rows ->
     precedes r1 r2 = true -> precedes r2 r1 = true -> r1 = r2) /\
  (forall r1 r2 r3, In r1 rows -> In r2 rows -> In r3 rows ->
     precedes r1 r2 = true -> precedes r2 r3 = true -> precedes r1 r3 = true) /\
  (forall r1 r2, In r1 rows -> In r2 rows ->
     precedes r1 r2 = true \/ precedes r2 r1 = true).

(** No average of the row is NaN. *)
Definition no_nan (row : list pyobj) : bool :=
  forallb (fun o => match o with Number x => negb (is_nan x) | Text _ => true end) row.

(** ** Files *)

(** A file that is opened and read to its end, and whose header holds
    both required columns. *)
Definition well_formed (fs : filesystem) (path : string) : Prop :=
  exists names rows,
    fs path = Rows (names :: rows) /\ In "position" names /\ In "performance" names.

(** The data rows of a file, and the records made of them. *)
Definition file_data_rows (fs : filesystem) (path : string) : list (list string) :=
  match fs path with
  | Rows rows => DictReader.data_rows rows
  | _ => []
  end.

Definition file_records (fs : filesystem) (path : string) : list EmployeeRecord :=
  match fs path with
  | Rows (names :: rows) => map (DictReader.record names) (DictReader.data_rows (names :: rows))
  | _ => []
  end.

(** The rows that the reader gives for a file that opens, whether it
    reaches the end of the file or raises after them. *)
Definition rows_read (f : file) : option (list (list string)) :=
  match f with
  | Rows rows | Broken rows => Some rows
  | Absent | Unreadable => None
  end.

(** ** Inputs of the test suite and of the examples *)

Definition test_header : list string :=
  ["name"; "position"; "completed_tasks"; "performance"; "skills"; "team";
   "experience_years"].

(** [employees1.csv] and [employees2.csv] of [test_performance_report_average],
    [bad.csv] of [test_read_employees_missing_column], a file with its
    header alone, an empty file and a file that cannot be opened. Any
    other path is absent, as [nope.csv] of [test_cli_unknown_file]. *)
Definition test_fs : filesystem := fun path =>
  if String.eqb path "employees1.csv" then
    Rows [test_header;
          ["A"; "Backend Developer"; "10"; "4.8"; ""; "Team"; "3"];
          ["B"; "Backend Developer"; "20"; "5.0"; ""; "Team"; "4"];
          ["C"; "QA Engineer"; "5"; "4.5"; ""; "Team"; "1"]]
  else if String.eqb path "employees2.csv" then
    Rows [test_header;
          ["D"; "Backend Developer"; "15"; "4.7"; ""; "Team"; "2"];
          ["E"; "QA Engineer"; "12"; "4.3"; ""; "Team"; "3"]]
  else if String.eqb path "bad.csv" then
    Rows [["name"; "position"; "completed_tasks"];
          ["A"; "Backend Developer"; "10"]]
  else if String.eqb path "header.csv" then Rows [test_header]
  else if String.eqb path "empty.csv" then Rows []
  else if String.eqb path "locked.csv" then Unreadable
  else Absent.

(** [test_fs] with one more file: [broken.csv] gives its header and one
    row, and the text after them is not UTF-8. *)
Definition broken_fs : filesystem := fun path =>
  if String.eqb path "broken.csv" then
    Broken [test_header;
            ["A"; "Backend Developer"; "10"; "4.8"; ""; "Team"; "3"]]
  else test_fs path.

(** A record with the two required fields. *)
Definition employee (position performance : string) : EmployeeRecord :=
  DictReader.record ["position"; "performance"] [position; performance].

Definition test_employees : list EmployeeRecord :=
  [employee "Backend Developer" "4.8"; employee "Backend Developer" "5.0";
   employee " QA Engineer " "4.5"; employee "" "5.0"; employee "Intern" "n/a";
   employee "Backend Developer" "4.7"; employee "QA Engineer" "4.3"].

(** The report of the test: 14.5 / 3 and 8.8 / 2, rounded. *)
Definition test_report : ReportResult :=
  {| headers := ["position"; "performance"];
     rows := [[Text "Backend Developer"; Number 4.83%float];
              [Text "QA Engineer"; Number 4.4%float]] |}.

Definition nan_employees : list EmployeeRecord :=
  [employee "A" "nan"; employee "B" "1"].

(** The report of [nan_employees]. *)
Definition nan_report : ReportResult :=
  {| headers := ["position"; "performance"];
     rows := [[Text "A"; Number nan]; [Text "B"; Number 1%float]] |}.

Definition inf_employees : list EmployeeRecord :=
  [employee "A" "inf"; employee "B" "1"].

(** ** The order of floats

    [SFcompare] orders the floats that are not NaN as the lexicographic
    order of a triple: the class (negative infinity, negative, zero,
    positive, positive infinity), then exponent and mantissa, both negated
    for a negative number. *)

Module FloatOrder.

Definition code (x : spec_float) : Z * Z * Z :=
  match x with
  | S754_infinity true => (-2, 0, 0)
  | S754_finite true m e => (-1, - e, Z.neg m)
  | S754_zero _ | S754_nan => (0, 0, 0)
  | S754_finite false m e => (1, e, Z.pos m)
  | S754_infinity false => (2, 0, 0)
  end.

Definition lex (a b : Z * Z * Z) : comparison :=
  let '(a1, a2, a3) := a in
  let '(b1, b2, b3) := b in
  match a1 ?= b1 with
  | Eq => match a2 ?= b2 with Eq => a3 ?= b3 | c => c end
  | c => c
  end.

Definition not_nan (x : float) : Prop := is_nan x = false.

(** The class of [x] in the order. *)
Definition rank (x : float) : Z * Z * Z := code (Prim2SF x).

End FloatOrder.

(** ** The order of sort keys

    A key whose number is not NaN is placed by the pair of the number's
    rank and the name; [cmp] is the lexicographic comparison of such
    pairs. *)

Module KeyOrder.
Import FloatOrder.

Definition place : Type := (Z * Z * Z) * string.

Definition cmp (a b : place) : comparison :=
  match lex (fst a) (fst b) with
  | Eq => String.compare (snd a) (snd b)
  | c => c
  end.

Definition le (a b : place) : Prop := cmp a b <> Gt.

(** The place of a key. *)
Definition of_key (k : float * string) : place := (rank (fst k), snd k).

(** A decorated row whose average is not NaN. *)
Definition placed (kr : (float * string) * list pyobj) : Prop :=
  exists p x, kr = (((- x)%float, p), [Text p; Number x]) /\ not_nan x.

End KeyOrder.

(** ** Further definitions *)

(** [sub in s] *)
Definition substring (sub s : string) : Prop :=
  exists before after, s = before +:+ sub +:+ after.

(** The sum of the counts of [totals]. *)
Definition count_sum (totals : Dict.t (float * Z)) : Z :=
  fold_right (fun item acc => snd (snd item) + acc) 0 totals.

(** [row[0]] of a report row. *)
Definition row_name (row : list pyobj) : option string :=
  match row with
  | Text p :: _ => Some p
  | _ => None
  end.

(** The rest of [s] after the whitespace character that it starts with,
    if it starts with one; [backwards] as for [PyStr.drop_space]. *)
Definition space_prefix (backwards : bool) (s : string) : option string :=
  match s with
  | String c s1 =>
      if PyStr.is_space1 c then Some s1
      else
        match s1 with
        | String d s2 =>
            if (if backwards then PyStr.is_space2 d c else PyStr.is_space2 c d)
            then Some s2
            else
              match s2 with
              | String e s3 =>
                  if (if backwards then PyStr.is_space3 e d c
                      else PyStr.is_space3 c d e)
                  then Some s3
                  else None
              | EmptyString => None
              end
        | EmptyString => None
        end
  | EmptyString => None
  end.

(** A stand-in for [parse_args] in the examples. It answers the command
    line [--files PATH ... --report NAME], whose paths and name do not
    start with a dash and whose name is one of [names], as [argparse]
    does. Every other command line is answered as a usage error, without
    the text that [argparse] prints. *)
Definition is_option (s : string) : bool :=
  match s with
  | String "-" _ => true
  | _ => false
  end.

Fixpoint split_paths (argv : list string) : list string * list string :=
  match argv with
  | a :: argv' =>
      if is_option a then ([], argv)
      else let '(paths, rest) := split_paths argv' in (a :: paths, rest)
  | [] => ([], [])
  end.

Definition parse_plain (names argv : list string) : outcome + Namespace.t :=
  match argv with
  | "--files" :: argv' =>
      match split_paths argv' with
      | (path :: paths, ["--report"; name]) =>
          if existsb (String.eqb name) names && negb (is_option name)
          then inr {| Namespace.files := path :: paths; Namespace.report := name |}
          else inl (SystemExit 2 "")
      | _ => inl (SystemExit 2 "")
      end
  | _ => inl (SystemExit 2 "")
  end.

(** The command line of [test_cli_unknown_file]. *)
Definition test_argv : list string :=
  ["--files"; "nope.csv"; "--report"; "performance"].

(** * Properties *)

(** ** The order of floats *)

Module FloatOrderFacts.
Import FloatOrder.

Lemma lex_spec a b :
  match lex a b with
  | Lt => let '(a1, a2, a3) := a in let '(b1, b2, b3) := b in
          a1 < b1 \/ a1 = b1 /\ (a2 < b2 \/ a2 = b2 /\ a3 < b3)
  | Eq => a = b
  | Gt => let '(a1, a2, a3) := a in let '(b1, b2, b3) := b in
          b1 < a1 \/ a1 = b1 /\ (b2 < a2 \/ a2 = b2 /\ b3 < a3)
  end.
Proof.
  destruct a as [[a1 a2] a3], b as [[b1 b2] b3]; simpl.
  destruct (Z.compare_spec a1 b1); [|lia|lia].
  destruct (Z.compare_spec a2 b2); [|lia|lia].
  destruct (Z.compare_spec a3 b3); [congruence|lia|lia].
Qed.

Lemma SFcompare_code x y :
  x <> S754_nan -> y <> S754_nan ->
  SFcompare x y = Some (lex (code x) (code y)).
Proof.
  intros Hx Hy.
  destruct x as [[]|[]| |[] m1 e1], y as [[]|[]| |[] m2 e2];
    try congruence; try reflexivity; simpl.
  rewrite Z.compare_opp.
  destruct (Z.compare_spec e1 e2) as [->|H|H].
  - rewrite Z.compare_refl. reflexivity.
  - destruct (Z.compare_spec e2 e1); try lia; reflexivity.
  - destruct (Z.compare_spec e2 e1); try lia; reflexivity.
Qed.

Lemma Prim2SF_nan x : Prim2SF x = S754_nan <-> is_nan x = true.
Proof.
  split; intros H.
  - unfold is_nan. rewrite FloatAxioms.eqb_spec. rewrite H. reflexivity.
  - unfold is_nan in H. rewrite FloatAxioms.eqb_spec in H.
    destruct (Prim2SF x) as [[]|[]| |[] m e]; try reflexivity;
      unfold SFeqb in H; simpl in H;
      try rewrite Z.compare_refl in H; try rewrite Pos.compare_cont_refl in H;
      simpl in H; discriminate.
Qed.

Lemma not_nan_SF x : not_nan x -> Prim2SF x <> S754_nan.
Proof. unfold not_nan. intros H E. apply Prim2SF_nan in E. congruence. Qed.

Lemma ltb_rank x y :
  not_nan x -> not_nan y -> (x <? y)%float = true <-> lex (rank x) (rank y) = Lt.
Proof.
  intros Hx Hy. rewrite FloatAxioms.ltb_spec. unfold SFltb, rank.
  rewrite SFcompare_code by (apply not_nan_SF; assumption).
  destruct (lex _ _); split; congruence.
Qed.

Lemma eqb_rank x y :
  not_nan x -> not_nan y -> (x =? y)%float = true <-> rank x = rank y.
Proof.
  intros Hx Hy. rewrite FloatAxioms.eqb_spec. unfold SFeqb, rank.
  rewrite SFcompare_code by (apply not_nan_SF; assumption).
  pose proof (lex_spec (code (Prim2SF x)) (code (Prim2SF y))) as L.
  destruct (lex _ _); split; try congruence; intros E; exfalso;
    rewrite E in L; destruct (code (Prim2SF y)) as [[? ?] ?]; lia.
Qed.

Lemma ltb_nan_l x y : is_nan x = true -> (x <? y)%float = false.
Proof.
  intros H. apply Prim2SF_nan in H. rewrite FloatAxioms.ltb_spec. unfold SFltb.
  rewrite H. reflexivity.
Qed.

Lemma ltb_nan_r x y : is_nan y = true -> (x <? y)%float = false.
Proof.
  intros H. apply Prim2SF_nan in H. rewrite FloatAxioms.ltb_spec. unfold SFltb.
  rewrite H. destruct (Prim2SF x); reflexivity.
Qed.

Lemma eqb_nan_l x y : is_nan x = true -> (x =? y)%float = false.
Proof.
  intros H. apply Prim2SF_nan in H. rewrite FloatAxioms.eqb_spec. unfold SFeqb.
  rewrite H. reflexivity.
Qed.

Lemma eqb_nan_r x y : is_nan y = true -> (x =? y)%float = false.
Proof.
  intros H. apply Prim2SF_nan in H. rewrite FloatAxioms.eqb_spec. unfold SFeqb.
  rewrite H. destruct (Prim2SF x); reflexivity.
Qed.

Lemma opp_nan x : is_nan (- x)%float = is_nan x.
Proof.
  destruct (is_nan x) eqn:E.
  - apply Prim2SF_nan. rewrite FloatAxioms.opp_spec. apply Prim2SF_nan in E.
    rewrite E. reflexivity.
  - destruct (is_nan (- x)%float) eqn:E'; [|reflexivity].
    apply Prim2SF_nan in E'. rewrite FloatAxioms.opp_spec in E'.
    assert (Prim2SF x = S754_nan) as N
        by (destruct (Prim2SF x); simpl in E'; congruence).
    apply Prim2SF_nan in N. congruence.
Qed.

(** Negation reverses the order. *)
Lemma rank_opp x :
  rank (- x)%float =
    let '(a, b, c) := rank x in (- a, - b, - c).
Proof.
  unfold rank. rewrite FloatAxioms.opp_spec.
  destruct (Prim2SF x) as [[]|[]| |[] m e]; simpl; try reflexivity.
  rewrite Z.opp_involutive. reflexivity.
Qed.

End FloatOrderFacts.

(** ** The order of strings *)

Module StrOrder.

Lemma ascii_compare_N a b :
  Ascii.compare a b = (N_of_ascii a ?= N_of_ascii b)%N.
Proof. reflexivity. Qed.

Lemma compare_cons a s b t :
  String.compare (String a s) (String b t) =
    match Ascii.compare a b with Eq => String.compare s t | c => c end.
Proof. simpl. destruct (Ascii.compare a b); reflexivity. Qed.

Lemma compare_refl s : String.compare s s = Eq.
Proof.
  pose proof (String.compare_antisym s s) as H.
  destruct (String.compare s s); simpl in H; congruence.
Qed.

Lemma compare_trans s : forall t u,
  String.compare s t = Lt -> String.compare t u = Lt -> String.compare s u = Lt.
Proof.
  induction s as [|a s IH]; intros [|b t] [|c u]; simpl; try congruence.
  rewrite !ascii_compare_N.
  destruct (N.compare_spec (N_of_ascii a) (N_of_ascii b)) as [E1|L1|G1];
    destruct (N.compare_spec (N_of_ascii b) (N_of_ascii c)) as [E2|L2|G2];
    try congruence; intros H1 H2.
  - rewrite E1, E2, N.compare_refl. eauto.
  - rewrite E1. apply N.compare_lt_iff in L2. rewrite L2. reflexivity.
  - rewrite <- E2. apply N.compare_lt_iff in L1. rewrite L1. reflexivity.
  - assert (N_of_ascii a < N_of_ascii c)%N as L by lia.
    apply N.compare_lt_iff in L. rewrite L. reflexivity.
Qed.

Lemma ltb_lt s t : PyStr.lt s t = true <-> String.compare s t = Lt.
Proof.
  unfold PyStr.lt, String.ltb. destruct (String.compare s t); split; congruence.
Qed.

Lemma leb_le s t : String.leb s t = true <-> String.compare s t <> Gt.
Proof.
  unfold String.leb. destruct (String.compare s t); split; congruence.
Qed.

End StrOrder.

(** ** The order of sort keys *)

Module KeyOrderFacts.
Import FloatOrder FloatOrderFacts KeyOrder.

Lemma lex_refl a : lex a a = Eq.
Proof. destruct a as [[a1 a2] a3]. simpl. rewrite !Z.compare_refl. reflexivity. Qed.

Lemma lex_eq a b : lex a b = Eq -> a = b.
Proof. intros H. pose proof (lex_spec a b) as L. rewrite H in L. exact L. Qed.

Lemma lex_antisym a b : lex a b = CompOpp (lex b a).
Proof.
  pose proof (lex_spec a b) as L1. pose proof (lex_spec b a) as L2.
  destruct a as [[a1 a2] a3], b as [[b1 b2] b3].
  destruct (lex (a1, a2, a3) (b1, b2, b3)), (lex (b1, b2, b3) (a1, a2, a3));
    simpl; try reflexivity; exfalso; try injection L1 as -> -> ->;
    try injection L2 as -> -> ->; lia.
Qed.

Lemma lex_trans a b c : lex a b = Lt -> lex b c = Lt -> lex a c = Lt.
Proof.
  intros H1 H2.
  pose proof (lex_spec a b) as L1. pose proof (lex_spec b c) as L2.
  pose proof (lex_spec a c) as L3. rewrite H1 in L1. rewrite H2 in L2.
  destruct a as [[a1 a2] a3], b as [[b1 b2] b3], c as [[c1 c2] c3].
  destruct (lex (a1, a2, a3) (c1, c2, c3)); try reflexivity; exfalso;
    try injection L3 as -> -> ->; lia.
Qed.

Lemma cmp_refl a : cmp a a = Eq.
Proof. unfold cmp. rewrite lex_refl. apply StrOrder.compare_refl. Qed.

Lemma cmp_eq a b : cmp a b = Eq -> a = b.
Proof.
  unfold cmp. destruct a as [x s], b as [y t]; simpl.
  destruct (lex x y) eqn:E; try discriminate.
  intros H. apply lex_eq in E. apply String.compare_eq_iff in H. congruence.
Qed.

Lemma cmp_antisym a b : cmp a b = CompOpp (cmp b a).
Proof.
  unfold cmp. rewrite (lex_antisym (fst a) (fst b)).
  destruct (lex (fst b) (fst a)); simpl; try reflexivity.
  apply String.compare_antisym.
Qed.

Lemma cmp_trans a b c : cmp a b = Lt -> cmp b c = Lt -> cmp a c = Lt.
Proof.
  unfold cmp. destruct a as [x s], b as [y t], c as [z u]; simpl.
  destruct (lex x y) eqn:E1; try discriminate;
    destruct (lex y z) eqn:E2; try discriminate; intros H1 H2.
  - apply lex_eq in E1, E2. subst. rewrite lex_refl.
    eapply StrOrder.compare_trans; eassumption.
  - apply lex_eq in E1. subst. rewrite E2. reflexivity.
  - apply lex_eq in E2. subst. rewrite E1. reflexivity.
  - rewrite (lex_trans _ _ _ E1 E2). reflexivity.
Qed.

Lemma le_refl a : le a a.
Proof. unfold le. rewrite cmp_refl. discriminate. Qed.

Lemma le_trans a b c : le a b -> le b c -> le a c.
Proof.
  unfold le. intros H1 H2.
  destruct (cmp a b) eqn:E1; try congruence;
    destruct (cmp b c) eqn:E2; try congruence.
  - apply cmp_eq in E1. subst. congruence.
  - apply cmp_eq in E1. subst. congruence.
  - apply cmp_eq in E2. subst. congruence.
  - rewrite (cmp_trans _ _ _ E1 E2). discriminate.
Qed.

Lemma le_antisym a b : le a b -> le b a -> a = b.
Proof.
  unfold le. rewrite (cmp_antisym b a). intros H1 H2.
  destruct (cmp a b) eqn:E; simpl in *; try congruence.
  apply cmp_eq. assumption.
Qed.

Lemma le_total a b : le a b \/ le b a.
Proof.
  unfold le. rewrite (cmp_antisym b a).
  destruct (cmp a b); simpl; [left|left|right]; discriminate.
Qed.

(** [key_lt] is the strict part of the order of places. *)
Lemma key_lt_cmp k1 k2 :
  not_nan (fst k1) -> not_nan (fst k2) ->
  key_lt k1 k2 = true <-> cmp (of_key k1) (of_key k2) = Lt.
Proof.
  intros N1 N2. unfold key_lt, cmp, of_key; simpl.
  destruct (fst k1 =? fst k2)%float eqn:E.
  - apply eqb_rank in E; try assumption. rewrite E, lex_refl.
    apply StrOrder.ltb_lt.
  - rewrite ltb_rank by assumption.
    destruct (lex (rank (fst k1)) (rank (fst k2))) eqn:L; split; try congruence.
    apply lex_eq in L. apply eqb_rank in L; try assumption. congruence.
Qed.

Lemma key_lt_false k1 k2 :
  not_nan (fst k1) -> not_nan (fst k2) ->
  key_lt k2 k1 = false <-> le (of_key k1) (of_key k2).
Proof.
  intros N1 N2. unfold le. rewrite (cmp_antisym (of_key k1)).
  pose proof (key_lt_cmp k2 k1 N2 N1) as H.
  destruct (key_lt k2 k1), (cmp (of_key k2) (of_key k1)); simpl;
    split; try congruence; intros; exfalso;
    try (destruct H as [H _]; specialize (H eq_refl); discriminate);
    try (destruct H as [_ H]; specialize (H eq_refl); discriminate).
Qed.

End KeyOrderFacts.

(** ** The sort *)

Section SortFacts.
Context {A : Type} (lt : A -> A -> bool).

Lemma insort_perm x l : Permutation (insort lt x l) (x :: l).
Proof.
  induction l as [|y l IH]; simpl.
  - reflexivity.
  - destruct (lt y x).
    + rewrite IH. apply perm_swap.
    + reflexivity.
Qed.

Lemma sort_perm l : Permutation (sort lt l) l.
Proof.
  induction l as [|x l IH]; simpl.
  - reflexivity.
  - rewrite insort_perm. apply perm_skip. exact IH.
Qed.

(** Where [lt] is the strict part of a total preorder [le] on the
    elements that satisfy [P], the result is sorted for [le]. *)
Variable P : A -> Prop.
Variable le : A -> A -> Prop.
Hypothesis lt_le : forall x y, P x -> P y -> lt x y = true -> le x y.
Hypothesis nlt_le : forall x y, P x -> P y -> lt y x = false -> le x y.
Hypothesis le_trans :
  forall x y z, P x -> P y -> P z -> le x y -> le y z -> le x z.

Lemma insort_sorted x l :
  P x -> Forall P l -> StronglySorted le l -> StronglySorted le (insort lt x l).
Proof.
  intros Px. induction l as [|y l IH]; intros HP HS; simpl.
  - constructor; constructor.
  - apply Forall_cons_iff in HP as [Py HP].
    apply StronglySorted_inv in HS as [HS Hy].
    destruct (lt y x) eqn:E.
    + constructor; [apply IH; assumption|].
      apply (Permutation_Forall (Permutation_sym (insort_perm x l))).
      constructor; [apply lt_le; assumption | assumption].
    + constructor; [constructor; assumption|].
      assert (le x y) as Hxy by (apply nlt_le; assumption).
      constructor; [assumption|].
      rewrite Forall_forall in Hy, HP |- *. intros z Hz.
      apply (le_trans x y z); auto.
Qed.

Lemma sort_sorted l : Forall P l -> StronglySorted le (sort lt l).
Proof.
  induction l as [|x l IH]; intros HP; simpl.
  - constructor.
  - apply Forall_cons_iff in HP as [Px HP].
    apply insort_sorted; auto.
    apply (Permutation_Forall (Permutation_sym (sort_perm l))). assumption.
Qed.

End SortFacts.

(** ** Dictionaries *)

Module DictFacts.
Section DictFacts.
Context {V : Type}.
Implicit Types (d : Dict.t V) (k : string) (v : V).

Lemma get_set_same k v d : Dict.get k (Dict.set k v d) = Some v.
Proof.
  induction d as [|[k' v'] d IH]; simpl.
  - rewrite String.eqb_refl. reflexivity.
  - destruct (String.eqb k k') eqn:E; simpl; rewrite ?E, ?String.eqb_refl; auto.
Qed.

Lemma get_set_other k k' v d :
  k <> k' -> Dict.get k' (Dict.set k v d) = Dict.get k' d.
Proof.
  intros N. induction d as [|[k'' v''] d IH]; simpl.
  - apply String.eqb_neq in N. rewrite String.eqb_sym, N. reflexivity.
  - destruct (String.eqb k k'') eqn:E; simpl.
    + apply String.eqb_eq in E. subst k''.
      apply String.eqb_neq in N. rewrite String.eqb_sym, N. reflexivity.
    + rewrite IH. reflexivity.
Qed.

Lemma get_None k d : Dict.get k d = None <-> ~ In k (Dict.keys d).
Proof.
  induction d as [|[k' v'] d IH]; simpl.
  - tauto.
  - destruct (String.eqb_spec k k') as [->|N].
    + split; [discriminate | intros H; exfalso; apply H; left; reflexivity].
    + rewrite IH. split; [intros H [E|I]; [congruence | tauto] | tauto].
Qed.

Lemma keys_set k v d :
  Dict.keys (Dict.set k v d) =
    match Dict.get k d with
    | Some _ => Dict.keys d
    | None => Dict.keys d ++ [k]
    end.
Proof.
  unfold Dict.keys. induction d as [|[k' v'] d IH]; simpl.
  - reflexivity.
  - destruct (String.eqb_spec k k') as [->|N]; simpl.
    + reflexivity.
    + rewrite IH. destruct (Dict.get k d); reflexivity.
Qed.

Lemma keys_set_NoDup k v d :
  NoDup (Dict.keys d) -> NoDup (Dict.keys (Dict.set k v d)).
Proof.
  intros H. rewrite keys_set. destruct (Dict.get k d) eqn:E; [assumption|].
  apply get_None in E.
  apply NoDup_app; repeat split; [assumption| |apply NoDup_singleton].
  intros x Hx Hk. apply list_elem_of_In in Hx.
  apply list_elem_of_In in Hk. simpl in Hk. destruct Hk as [<-|[]]. tauto.
Qed.

Lemma get_In k v d :
  NoDup (Dict.keys d) -> In (k, v) d -> Dict.get k d = Some v.
Proof.
  induction d as [|[k' v'] d IH]; simpl; intros ND HI; [tauto|].
  apply NoDup_cons in ND as [Hk ND].
  destruct HI as [E|HI].
  - injection E as -> ->. rewrite String.eqb_refl. reflexivity.
  - destruct (String.eqb_spec k k') as [->|N]; [|auto].
    exfalso. apply Hk. apply list_elem_of_In.
    change (In k' (map fst d)). apply in_map_iff. exists (k', v). auto.
Qed.

End DictFacts.
End DictFacts.

(** ** The loop of [performance_report] *)

Section Aggregation.

Variable float_of_str : string -> option float.

Lemma entry_skipped row :
  entry float_of_str row = None <-> skipped float_of_str row = true.
Proof.
  unfold entry, skipped.
  destruct (get row "position") as [pos|]; [|tauto].
  destruct (get row "performance") as [perf|]; [|tauto].
  destruct (String.eqb (PyStr.strip pos) ""); [tauto|].
  destruct (float_of_str perf); simpl; split; congruence.
Qed.

Lemma entry_position row :
  position_of float_of_str row = option_map fst (entry float_of_str row).
Proof.
  unfold position_of, entry, skipped.
  destruct (get row "position") as [pos|]; [|reflexivity].
  destruct (get row "performance") as [perf|]; [|reflexivity].
  destruct (String.eqb (PyStr.strip pos) ""); [reflexivity|].
  destruct (float_of_str perf); reflexivity.
Qed.

Lemma entry_performance p row :
  performance_of float_of_str p row =
    match entry float_of_str row with
    | Some (q, x) => if String.eqb q p then Some x else None
    | None => None
    end.
Proof.
  unfold performance_of. rewrite entry_position. unfold entry.
  destruct (get row "position") as [pos|]; [|reflexivity].
  destruct (get row "performance") as [perf|]; [|reflexivity].
  destruct (String.eqb (PyStr.strip pos) ""); [reflexivity|].
  destruct (float_of_str perf) eqn:E; simpl; [|reflexivity].
  rewrite E. reflexivity.
Qed.

Lemma position_nonempty row p : position_of float_of_str row = Some p -> p <> "".
Proof.
  rewrite entry_position. unfold entry.
  destruct (get row "position") as [pos|]; [|discriminate].
  destruct (get row "performance") as [perf|]; [|discriminate].
  destruct (String.eqb_spec (PyStr.strip pos) ""); [discriminate|].
  destruct (float_of_str perf); simpl; congruence.
Qed.

(** What the loop leaves under the key [p], from any state [acc]. *)
Lemma get_fold_accumulate p employees : forall acc,
  Dict.get p (fold_left (accumulate float_of_str) employees acc) =
    let xs := performances float_of_str p employees in
    match Dict.get p acc, xs with
    | Some (t, c), _ => Some (fold_left PrimFloat.add xs t, c + Z.of_nat (length xs))
    | None, [] => None
    | None, _ :: _ => Some (fsum xs, Z.of_nat (length xs))
    end.
Proof.
  induction employees as [|row l IH]; intros acc; simpl.
  - destruct (Dict.get p acc) as [[t c]|]; [|reflexivity].
    rewrite Z.add_0_r. reflexivity.
  - rewrite IH. unfold performances. simpl. fold (performances float_of_str p l).
    rewrite entry_performance. unfold accumulate.
    destruct (entry float_of_str row) as [[q x]|].
    + destruct (String.eqb_spec q p) as [->|N].
      * destruct (Dict.get p acc) as [[t c]|]; simpl;
          rewrite DictFacts.get_set_same.
        -- f_equal. f_equal. lia.
        -- unfold fsum. simpl. f_equal. f_equal. lia.
      * destruct (match Dict.get q acc with Some tc => tc | None => _ end) as [t c].
        rewrite DictFacts.get_set_other by assumption. reflexivity.
    + reflexivity.
Qed.

Lemma keys_fold_accumulate employees : forall acc,
  NoDup (Dict.keys acc) ->
  NoDup (Dict.keys (fold_left (accumulate float_of_str) employees acc)).
Proof.
  induction employees as [|row l IH]; intros acc H; simpl; [assumption|].
  apply IH. unfold accumulate.
  destruct (entry float_of_str row) as [[q x]|]; [|assumption].
  destruct (match Dict.get q acc with Some tc => tc | None => _ end) as [t c].
  apply DictFacts.keys_set_NoDup. assumption.
Qed.

Lemma get_totals p employees :
  Dict.get p (totals_of float_of_str employees) =
    match performances float_of_str p employees with
    | [] => None
    | xs => Some (fsum xs, Z.of_nat (length xs))
    end.
Proof.
  unfold totals_of. rewrite get_fold_accumulate. simpl.
  destruct (performances float_of_str p employees); reflexivity.
Qed.

Lemma performances_positions p employees :
  performances float_of_str p employees <> [] <-> In p (positions float_of_str employees).
Proof.
  unfold positions. rewrite <- list_elem_of_In, elem_of_remove_dups, list_elem_of_In.
  unfold performances. induction employees as [|row l IH]; simpl; [tauto|].
  unfold performance_of at 1. rewrite (entry_position row).
  destruct (entry float_of_str row) as [[q x]|] eqn:E; simpl; [|exact IH].
  assert (get row "performance" ≫= float_of_str = Some x) as ->.
  { unfold entry in E.
    destruct (get row "position") as [pos|]; [|discriminate].
    destruct (get row "performance") as [perf|]; [|discriminate].
    destruct (String.eqb (PyStr.strip pos) ""); [discriminate|]. simpl.
    destruct (float_of_str perf); congruence. }
  destruct (String.eqb_spec q p) as [->|N].
  - split; [auto | discriminate].
  - rewrite IH. split; [auto | intros [?|?]; [congruence | assumption]].
Qed.

Lemma keys_totals employees :
  Permutation (Dict.keys (totals_of float_of_str employees)) (positions float_of_str employees).
Proof.
  apply NoDup_Permutation.
  - apply keys_fold_accumulate. constructor.
  - apply NoDup_remove_dups.
  - intros p. rewrite !list_elem_of_In, <- performances_positions.
    pose proof (DictFacts.get_None p (totals_of float_of_str employees)) as H.
    rewrite get_totals in H.
    destruct (performances float_of_str p employees) eqn:E.
    + split; [intros I; exfalso; apply H; auto | congruence].
    + split; [discriminate | intros _].
      destruct (in_dec string_dec p (Dict.keys (totals_of float_of_str employees))); [assumption|].
      apply H in n. discriminate.
Qed.

Lemma make_row_totals employees :
  map make_row (totals_of float_of_str employees) =
    map (expected_row float_of_str employees) (Dict.keys (totals_of float_of_str employees)).
Proof.
  pose proof (keys_fold_accumulate employees [] NoDup_nil_2) as ND.
  fold (totals_of float_of_str employees) in ND.
  assert (forall item, In item (totals_of float_of_str employees) ->
            make_row item = expected_row float_of_str employees (fst item)) as H.
  { intros [p [t c]] HI. apply DictFacts.get_In in HI; [|assumption].
    rewrite get_totals in HI. unfold expected_row, average. simpl.
    destruct (performances float_of_str p employees); [discriminate|].
    injection HI as <- <-. reflexivity. }
  unfold Dict.keys. rewrite map_map. apply map_ext_in. exact H.
Qed.

End Aggregation.

(** ** The rows and their sort *)

Lemma make_row_shape item : is_report_row (make_row item).
Proof. destruct item as [p [t c]]. eexists _, _. reflexivity. Qed.

Lemma decorate_snd l d : decorate l = Some d -> map snd d = l.
Proof.
  revert d. induction l as [|row l IH]; simpl; intros d H.
  - injection H as <-. reflexivity.
  - destruct (sort_key row) as [k|]; [|discriminate].
    destruct (decorate l) as [d'|]; [|discriminate].
    injection H as <-. simpl. f_equal. apply IH. reflexivity.
Qed.

Lemma decorate_key l d :
  decorate l = Some d -> Forall (fun kr => sort_key (snd kr) = Some (fst kr)) d.
Proof.
  revert d. induction l as [|row l IH]; simpl; intros d H.
  - injection H as <-. constructor.
  - destruct (sort_key row) as [k|] eqn:E; [|discriminate].
    destruct (decorate l) as [d'|]; [|discriminate].
    injection H as <-. constructor; [exact E | apply IH; reflexivity].
Qed.

Lemma decorate_defined l : Forall is_report_row l -> exists d, decorate l = Some d.
Proof.
  induction 1 as [|row l (p & x & ->) _ [d IH]]; simpl.
  - eexists. reflexivity.
  - rewrite IH. eexists. reflexivity.
Qed.

Lemma sort_rows_perm l rows : sort_rows l = Some rows -> Permutation rows l.
Proof.
  unfold sort_rows. destruct (decorate l) as [d|] eqn:E; [|discriminate].
  simpl. intros H. injection H as <-.
  rewrite <- (decorate_snd l d E). apply Permutation_map. apply sort_perm.
Qed.

Lemma sort_rows_defined l :
  Forall is_report_row l -> exists rows, sort_rows l = Some rows.
Proof.
  intros H. destruct (decorate_defined l H) as [d E].
  unfold sort_rows. rewrite E. eexists. reflexivity.
Qed.

Section Outcome.

Variable float_of_str : string -> option float.

(** The two ways [performance_report] ends. *)
Lemma performance_report_outcome employees :
  totals_of float_of_str employees = [] /\
    performance_report float_of_str employees = inl (Raise NoValidData)
  \/
  totals_of float_of_str employees <> [] /\
    exists rows,
      sort_rows (map make_row (totals_of float_of_str employees)) = Some rows /\
      performance_report float_of_str employees =
        inr {| headers := ["position"; "performance"]; rows := rows |}.
Proof.
  unfold performance_report. fold (totals_of float_of_str employees).
  destruct (totals_of float_of_str employees) as [|item totals] eqn:E.
  - left. split; reflexivity.
  - right. split; [discriminate|].
    destruct (sort_rows_defined (map make_row (item :: totals))) as [rows R].
    { apply List.Forall_forall. intros row Hrow. apply in_map_iff in Hrow as (i & <- & _).
      apply make_row_shape. }
    exists rows. rewrite R. split; reflexivity.
Qed.

Lemma fold_accumulate_skipped employees :
  Forall (fun row => skipped float_of_str row = true) employees ->
  forall acc, fold_left (accumulate float_of_str) employees acc = acc.
Proof.
  induction 1 as [|row l Hrow _ IH]; intros acc; simpl; [reflexivity|].
  rewrite IH. unfold accumulate.
  apply entry_skipped in Hrow. rewrite Hrow. reflexivity.
Qed.

Lemma totals_nil_skipped employees :
  totals_of float_of_str employees = [] <->
  Forall (fun row => skipped float_of_str row = true) employees.
Proof.
  split.
  - intros E. apply List.Forall_forall. intros row Hrow.
    destruct (skipped float_of_str row) eqn:S; [reflexivity|exfalso].
    destruct (position_of float_of_str row) as [p|] eqn:P;
      [|unfold position_of in P; rewrite S in P;
        unfold skipped in S; destruct (get row "position"); discriminate].
    assert (In p (positions float_of_str employees)) as Hp.
    { unfold positions. apply list_elem_of_In, elem_of_remove_dups.
      apply list_elem_of_omap. exists row. split; [apply list_elem_of_In|]; assumption. }
    apply performances_positions in Hp.
    pose proof (get_totals float_of_str p employees) as G. rewrite E in G.
    destruct (performances float_of_str p employees); [congruence | discriminate].
  - intros H. apply fold_accumulate_skipped. assumption.
Qed.

End Outcome.

(** ** The order of the report *)

Section RowOrder.
Import FloatOrder FloatOrderFacts KeyOrder KeyOrderFacts.

Lemma lex_opp a b :
  lex (let '(a1, a2, a3) := a in (- a1, - a2, - a3))
      (let '(b1, b2, b3) := b in (- b1, - b2, - b3)) = lex b a.
Proof.
  destruct a as [[a1 a2] a3], b as [[b1 b2] b3]. simpl.
  rewrite !Z.compare_opp. reflexivity.
Qed.

Lemma le_precedes p1 x1 p2 x2 :
  not_nan x1 -> not_nan x2 ->
  le (of_key ((- x1)%float, p1)) (of_key ((- x2)%float, p2)) <->
  precedes [Text p1; Number x1] [Text p2; Number x2] = true.
Proof.
  intros N1 N2. unfold le, cmp, of_key, precedes. simpl.
  rewrite !rank_opp, lex_opp.
  pose proof (ltb_rank x2 x1 N2 N1) as L.
  pose proof (eqb_rank x1 x2 N1 N2) as E.
  pose proof (lex_antisym (rank x1) (rank x2)) as O.
  destruct (lex (rank x2) (rank x1)) eqn:C.
  - apply lex_eq in C.
    destruct (x2 <? x1)%float; [destruct L as [L _]; specialize (L eq_refl); discriminate|].
    destruct (x1 =? x2)%float; [|destruct E as [_ E]; symmetry in C; specialize (E C); discriminate].
    simpl. symmetry. apply StrOrder.leb_le.
  - destruct (x2 <? x1)%float; [|destruct L as [_ L]; specialize (L eq_refl); discriminate].
    simpl. split; [reflexivity | discriminate].
  - destruct (x2 <? x1)%float; [destruct L as [L _]; specialize (L eq_refl); discriminate|].
    destruct (x1 =? x2)%float.
    + destruct E as [E _]. specialize (E eq_refl). rewrite E, lex_refl in C. discriminate.
    + simpl. split; [congruence | discriminate].
Qed.

Lemma decorate_placed l : forall d,
  decorate l = Some d ->
  Forall is_report_row l -> Forall (fun r => no_nan r = true) l ->
  Forall placed d.
Proof.
  induction l as [|row l IH]; simpl; intros d H S N.
  - injection H as <-. constructor.
  - apply Forall_cons_iff in S as [(p & x & ->) S].
    apply Forall_cons_iff in N as [Nx N].
    simpl in H. destruct (decorate l) as [d'|]; [|discriminate].
    injection H as <-. constructor; [|apply IH; auto].
    exists p, x. split; [reflexivity|].
    unfold not_nan. simpl in Nx. destruct (is_nan x); [discriminate | reflexivity].
Qed.

Lemma placed_not_nan kr : placed kr -> not_nan (fst (fst kr)).
Proof.
  intros (p & x & -> & N). unfold not_nan in *. simpl. rewrite opp_nan. exact N.
Qed.

Lemma placed_precedes a b :
  placed a -> placed b ->
  le (of_key (fst a)) (of_key (fst b)) <-> precedes (snd a) (snd b) = true.
Proof.
  intros (p1 & x1 & -> & N1) (p2 & x2 & -> & N2). simpl.
  apply le_precedes; assumption.
Qed.

Lemma sorted_map_snd (d : list ((float * string) * list pyobj)) :
  Forall placed d ->
  StronglySorted (fun a b => le (of_key (fst a)) (of_key (fst b))) d ->
  sorted_report (map snd d).
Proof.
  unfold sorted_report. induction d as [|a d IH]; simpl; intros P S.
  - constructor.
  - apply Forall_cons_iff in P as [Pa P].
    apply StronglySorted_inv in S as [S Ha].
    constructor; [apply IH; assumption|].
    apply List.Forall_forall. intros r Hr.
    apply in_map_iff in Hr as (b & <- & Hb).
    rewrite List.Forall_forall in Ha, P.
    apply placed_precedes; auto.
Qed.

Lemma sort_rows_sorted l rows :
  sort_rows l = Some rows ->
  Forall is_report_row l -> Forall (fun r => no_nan r = true) l ->
  sorted_report rows.
Proof.
  unfold sort_rows. destruct (decorate l) as [d|] eqn:E; [|discriminate].
  simpl. intros H S N. injection H as <-.
  pose proof (decorate_placed l d E S N) as P.
  set (klt := fun a b : (float * string) * list pyobj => key_lt (fst a) (fst b)).
  assert (Forall placed (sort klt d)) as P'
      by (apply (Permutation_Forall (Permutation_sym (sort_perm klt d))); exact P).
  apply sorted_map_snd; [exact P'|].
  apply (sort_sorted klt placed); [| | |exact P].
  - intros x y Px Py H. unfold klt in H.
    apply key_lt_cmp in H; try (apply placed_not_nan; assumption).
    unfold le. rewrite H. discriminate.
  - intros x y Px Py H. unfold klt in H.
    apply key_lt_false; try (apply placed_not_nan; assumption). exact H.
  - intros x y z _ _ _. apply le_trans.
Qed.

(** On rows without NaN and with one row per name, [precedes] is a total
    order. *)
Lemma total_order_rows rows :
  Forall is_report_row rows -> Forall (fun r => no_nan r = true) rows ->
  (forall p x y, In [Text p; Number x] rows -> In [Text p; Number y] rows -> x = y) ->
  total_order_on rows.
Proof.
  intros S N U.
  assert (forall r, In r rows -> exists p x, r = [Text p; Number x] /\ not_nan x) as R.
  { intros r Hr. rewrite List.Forall_forall in S, N.
    destruct (S r Hr) as (p & x & ->). exists p, x. split; [reflexivity|].
    specialize (N _ Hr). unfold not_nan. simpl in N.
    destruct (is_nan x); [discriminate | reflexivity]. }
  repeat split.
  - intros r Hr. destruct (R r Hr) as (p & x & -> & Nx).
    apply le_precedes; try assumption. apply le_refl.
  - intros r1 r2 H1 H2 L1 L2.
    destruct (R r1 H1) as (p1 & x1 & -> & N1).
    destruct (R r2 H2) as (p2 & x2 & -> & N2).
    apply le_precedes in L1, L2; try assumption.
    pose proof (le_antisym _ _ L1 L2) as E. unfold of_key in E. simpl in E.
    injection E as _ <-. f_equal. f_equal. f_equal. eapply U; eassumption.
  - intros r1 r2 r3 H1 H2 H3 L1 L2.
    destruct (R r1 H1) as (p1 & x1 & -> & N1).
    destruct (R r2 H2) as (p2 & x2 & -> & N2).
    destruct (R r3 H3) as (p3 & x3 & -> & N3).
    apply le_precedes in L1, L2; try assumption.
    apply le_precedes; try assumption. eapply le_trans; eassumption.
  - intros r1 r2 H1 H2.
    destruct (R r1 H1) as (p1 & x1 & -> & N1).
    destruct (R r2 H2) as (p2 & x2 & -> & N2).
    destruct (le_total (of_key ((- x1)%float, p1)) (of_key ((- x2)%float, p2))) as [L|L];
      [left|right]; apply le_precedes; assumption.
Qed.

End RowOrder.

(** ** The report of an input that is not all skipped *)

Section ReportFacts.

Variable float_of_str : string -> option float.

Lemma performance_report_rows employees res :
  performance_report float_of_str employees = inr res ->
  headers res = ["position"; "performance"] /\
  sort_rows (map make_row (totals_of float_of_str employees)) = Some (rows res) /\
  Permutation (rows res)
    (map (expected_row float_of_str employees) (positions float_of_str employees)).
Proof.
  intros H.
  destruct (performance_report_outcome float_of_str employees)
    as [[_ E]|[_ (rs & S & E)]]; rewrite E in H; [discriminate|].
  injection H as <-. simpl. repeat split; [exact S|].
  rewrite (sort_rows_perm _ _ S), make_row_totals.
  apply Permutation_map, keys_totals.
Qed.

Lemma positions_totals employees :
  positions float_of_str employees = [] <-> totals_of float_of_str employees = [].
Proof.
  pose proof (keys_totals float_of_str employees) as P. split; intros E.
  - rewrite E in P. symmetry in P. apply Permutation_nil in P.
    destruct (totals_of float_of_str employees); [reflexivity | discriminate].
  - rewrite E in P. apply Permutation_nil. exact P.
Qed.

Lemma totals_filter employees : forall acc,
  fold_left (accumulate float_of_str) employees acc =
  fold_left (accumulate float_of_str)
    (List.filter (fun row => negb (skipped float_of_str row)) employees) acc.
Proof.
  induction employees as [|row l IH]; intros acc; [reflexivity|].
  cbn [List.filter fold_left]. destruct (skipped float_of_str row) eqn:S; simpl.
  - rewrite <- IH. apply entry_skipped in S. unfold accumulate. rewrite S.
    reflexivity.
  - apply IH.
Qed.

Lemma performance_report_filter employees :
  performance_report float_of_str employees =
  performance_report float_of_str
    (List.filter (fun row => negb (skipped float_of_str row)) employees).
Proof. unfold performance_report. rewrite <- totals_filter. reflexivity. Qed.

Lemma report_rows_shape employees res :
  performance_report float_of_str employees = inr res ->
  Forall is_report_row (rows res).
Proof.
  intros H. apply performance_report_rows in H as (_ & _ & P).
  apply (Permutation_Forall (Permutation_sym P)).
  apply List.Forall_forall. intros r Hr. apply in_map_iff in Hr as (p & <- & _).
  eexists _, _. reflexivity.
Qed.

Lemma report_rows_unique employees res p x y :
  performance_report float_of_str employees = inr res ->
  In [Text p; Number x] (rows res) -> In [Text p; Number y] (rows res) -> x = y.
Proof.
  intros H Hx Hy. apply performance_report_rows in H as (_ & _ & P).
  apply (Permutation_in _ P) in Hx, Hy.
  apply in_map_iff in Hx as (p1 & E1 & _). apply in_map_iff in Hy as (p2 & E2 & _).
  unfold expected_row in E1, E2. congruence.
Qed.

Lemma report_rows_NoDup employees res :
  performance_report float_of_str employees = inr res -> List.NoDup (rows res).
Proof.
  intros H. apply performance_report_rows in H as (_ & _ & P).
  apply (Permutation_NoDup (Permutation_sym P)).
  apply Injective_map_NoDup.
  - intros p q E. unfold expected_row in E. congruence.
  - apply NoDup_ListNoDup, NoDup_remove_dups.
Qed.

End ReportFacts.

Lemma sorted_nth {A} (R : A -> A -> Prop) l : StronglySorted R l ->
  forall i j a b, (i < j)%nat ->
    nth_error l i = Some a -> nth_error l j = Some b -> R a b.
Proof.
  induction 1 as [|x l S IH F]; intros i j a b L Hi Hj.
  - destruct i; discriminate.
  - destruct j as [|j]; [lia|]. simpl in Hj. destruct i as [|i]; simpl in Hi.
    + injection Hi as <-. rewrite List.Forall_forall in F.
      apply F. eapply nth_error_In. eassumption.
    + apply (IH i j); [lia | assumption | assumption].
Qed.

(** A list has one sorted arrangement for an order that is reflexive and
    antisymmetric on its elements: what a sort returns for such an order
    does not depend on how it sorts. *)
Lemma sorted_unique {A} (R : A -> A -> Prop) (l1 : list A) : forall l2,
  (forall x, In x l1 -> R x x) ->
  (forall x y, In x l1 -> In y l1 -> R x y -> R y x -> x = y) ->
  Permutation l1 l2 -> StronglySorted R l1 -> StronglySorted R l2 -> l1 = l2.
Proof.
  induction l1 as [|a l1 IH]; intros l2 Refl Anti P S1 S2.
  - apply Permutation_nil in P. congruence.
  - destruct l2 as [|b l2]; [apply Permutation_sym, Permutation_nil in P; discriminate|].
    apply StronglySorted_inv in S1 as [S1 F1].
    apply StronglySorted_inv in S2 as [S2 F2].
    rewrite List.Forall_forall in F1, F2.
    assert (In a (b :: l2)) as Ha by (apply (Permutation_in _ P); left; reflexivity).
    assert (In b (a :: l1))
      as Hb by (apply (Permutation_in _ (Permutation_sym P)); left; reflexivity).
    assert (a = b) as <-.
    { destruct Ha as [E|Ha]; [congruence|]. destruct Hb as [E|Hb]; [congruence|].
      apply Anti; [left; reflexivity | right; assumption | auto | auto]. }
    f_equal. apply IH; [| |eapply Permutation_cons_inv; exact P | assumption | assumption].
    + intros x Hx. apply Refl. right. exact Hx.
    + intros x y Hx Hy. apply Anti; right; assumption.
Qed.

(** ** The report without NaN *)

Section ReportOrder.

Variable float_of_str : string -> option float.
Variable employees : list EmployeeRecord.
Variable res : ReportResult.
Hypothesis Hres : performance_report float_of_str employees = inr res.
Hypothesis Hnan : Forall (fun row => no_nan row = true) (rows res).

Lemma report_sorted : sorted_report (rows res).
Proof.
  pose proof (performance_report_rows float_of_str employees res Hres) as (_ & R & _).
  apply (sort_rows_sorted _ _ R).
  - apply List.Forall_forall. intros r Hr.
    apply in_map_iff in Hr as (i & <- & _). apply make_row_shape.
  - apply (Permutation_Forall (sort_rows_perm _ _ R)). exact Hnan.
Qed.

Lemma report_total_order : total_order_on (rows res).
Proof.
  apply total_order_rows;
    [exact (report_rows_shape float_of_str employees res Hres) | exact Hnan |].
  intros p x y. apply (report_rows_unique float_of_str employees res p x y Hres).
Qed.

(** The rows are the one sorted arrangement of themselves: another sort
    than the insertion sort would return the same list. *)
Lemma report_arrangement_unique rows' :
  Permutation rows' (rows res) -> sorted_report rows' -> rows' = rows res.
Proof.
  intros P S. symmetry.
  destruct report_total_order as (Refl & Anti & _).
  apply (sorted_unique (fun r1 r2 => precedes r1 r2 = true));
    [exact Refl | exact Anti | symmetry; exact P | exact report_sorted | exact S].
Qed.

End ReportOrder.

(** ** Ingestion *)

Section Ingestion.

Variable fs : filesystem.

Lemma existsb_eqb_In c names : existsb (String.eqb c) names = true <-> In c names.
Proof.
  rewrite existsb_exists. split.
  - intros (x & Hx & E). apply String.eqb_eq in E. congruence.
  - intros H. exists c. split; [assumption | apply String.eqb_refl].
Qed.

Lemma missing_columns_nil names :
  missing_columns names = [] <-> In "position" names /\ In "performance" names.
Proof.
  unfold missing_columns, required_columns. cbn [List.filter].
  pose proof (existsb_eqb_In "position" names) as P.
  pose proof (existsb_eqb_In "performance" names) as Q.
  split.
  - destruct (existsb (String.eqb "position") names),
      (existsb (String.eqb "performance") names); simpl; try discriminate.
    intros _. split; [apply P | apply Q]; reflexivity.
  - intros [H1 H2]. apply P in H1. apply Q in H2. rewrite H1, H2. reflexivity.
Qed.

Lemma read_file_well_formed path :
  well_formed fs path -> read_file fs path = inr (file_records fs path).
Proof.
  intros (names & rows & E & H). unfold read_file, file_records. rewrite E. simpl.
  destruct names as [|n names]; [destruct H as [H _]; destruct H|].
  apply missing_columns_nil in H. rewrite H. reflexivity.
Qed.

Lemma read_file_inr path rs :
  read_file fs path = inr rs -> well_formed fs path.
Proof.
  unfold read_file, well_formed. destruct (fs path) as [| |rows|rows]; try discriminate.
  2: { destruct rows as [|[|n names] rows]; simpl; try discriminate.
       destruct (missing_columns (n :: names)); discriminate. }
  destruct rows as [|names rows]; simpl; [discriminate|].
  destruct names as [|n names]; [discriminate|].
  destruct (missing_columns (n :: names)) eqn:M; [|discriminate].
  intros _. apply missing_columns_nil in M. eauto.
Qed.

Lemma read_files_ok files : Forall (well_formed fs) files ->
  forall acc, read_files fs files acc = inr (acc ++ concat (map (file_records fs) files)).
Proof.
  induction 1 as [|path files H _ IH]; intros acc; simpl.
  - rewrite app_nil_r. reflexivity.
  - rewrite (read_file_well_formed path H), IH, app_assoc. reflexivity.
Qed.

(** The first file that fails decides the exception. *)
Lemma read_files_first_failure l1 path l2 e :
  Forall (well_formed fs) l1 -> read_file fs path = inl e ->
  forall acc, read_files fs (l1 ++ path :: l2) acc = inl e.
Proof.
  induction 1 as [|p l1 H _ IH]; intros E acc; simpl.
  - rewrite E. reflexivity.
  - rewrite (read_file_well_formed p H). apply IH. exact E.
Qed.

(** A file that fails anywhere in the list makes the loop fail. *)
Lemma read_files_fail files path e :
  In path files -> read_file fs path = inl e ->
  forall acc, exists e', read_files fs files acc = inl e'.
Proof.
  induction files as [|p files IH]; intros HI E acc; simpl; [destruct HI|].
  destruct (read_file fs p) as [e'|rs] eqn:R; [eauto|].
  destruct HI as [->|HI]; [congruence|]. apply IH; assumption.
Qed.

Lemma read_files_inr files : forall acc l,
  read_files fs files acc = inr l -> Forall (well_formed fs) files.
Proof.
  induction files as [|p files IH]; intros acc l H; simpl in H; [constructor|].
  destruct (read_file fs p) as [e'|rs] eqn:R; [discriminate|].
  constructor; [eapply read_file_inr; eassumption | eapply IH; eassumption].
Qed.

(** An exception of the loop is the exception of one of the files. *)
Lemma read_files_inl files : forall acc e,
  read_files fs files acc = inl e ->
  exists path, In path files /\ read_file fs path = inl e.
Proof.
  induction files as [|p files IH]; intros acc e H; simpl in H; [discriminate|].
  destruct (read_file fs p) as [e'|rs] eqn:R.
  - injection H as ->. exists p. split; [left; reflexivity | exact R].
  - destruct (IH _ _ H) as (path & HI & E). exists path. split; [right|]; assumption.
Qed.

Lemma read_file_not_empty_dataset path :
  read_file fs path <> inl (Raise EmptyDataset).
Proof.
  unfold read_file.
  destruct (fs path) as [| |[|[|n names] rows]|[|[|n names] rows]]; try discriminate;
    simpl; destruct (missing_columns (n :: names)); discriminate.
Qed.

Lemma read_employees_fail files path e :
  In path files -> read_file fs path = inl e ->
  exists e', read_employees fs files = inl e'.
Proof.
  intros HI E. unfold read_employees.
  destruct (read_files_fail files path e HI E []) as [e' ->]. eauto.
Qed.

Lemma read_employees_first_failure l1 path l2 e :
  Forall (well_formed fs) l1 -> read_file fs path = inl e ->
  read_employees fs (l1 ++ path :: l2) = inl e.
Proof.
  intros H E. unfold read_employees.
  rewrite (read_files_first_failure l1 path l2 e H E). reflexivity.
Qed.

Lemma file_records_length path :
  length (file_records fs path) = length (file_data_rows fs path).
Proof.
  unfold file_records, file_data_rows. destruct (fs path) as [| |[|names rows]|rows];
    try reflexivity. apply length_map.
Qed.

Lemma concat_records_length files :
  length (concat (map (file_records fs) files)) =
  list_sum (map (fun path => length (file_data_rows fs path)) files).
Proof.
  induction files as [|p files IH]; simpl; [reflexivity|].
  rewrite length_app, IH, file_records_length. reflexivity.
Qed.

End Ingestion.

(** ** The records of [csv.DictReader] *)

Section Record.
Import DictReader.

Lemma fold_put_cell_other names : forall row d k,
  ~ In k names -> fold_left put_cell (combine names row) d !! k = d !! k.
Proof.
  induction names as [|n names IH]; intros row d k N; [reflexivity|].
  destruct row as [|r row]; [reflexivity|]. simpl.
  rewrite IH by (intros H; apply N; right; exact H).
  apply lookup_insert_ne. intros ->. apply N. left. reflexivity.
Qed.

Lemma fold_put_cell_nth names : forall row d i name v,
  List.NoDup names -> nth_error names i = Some name -> nth_error row i = Some v ->
  fold_left put_cell (combine names row) d !! name = Some (Some v).
Proof.
  induction names as [|n names IH]; intros row d i name v ND Hn Hr.
  - destruct i; discriminate.
  - destruct row as [|r row]; [destruct i; discriminate|].
    apply List.NoDup_cons_iff in ND as [Nn ND]. simpl.
    destruct i as [|i]; simpl in Hn, Hr.
    + injection Hn as ->. injection Hr as ->.
      rewrite fold_put_cell_other by assumption. apply lookup_insert_eq.
    + eapply IH; eassumption.
Qed.

Lemma fold_put_none_other ks : forall d k,
  ~ In k ks -> fold_left put_none ks d !! k = d !! k.
Proof.
  induction ks as [|k' ks IH]; intros d k N; [reflexivity|]. simpl.
  rewrite IH by (intros H; apply N; right; exact H).
  apply lookup_insert_ne. intros ->. apply N. left. reflexivity.
Qed.

Lemma fold_put_none_in ks : forall d k,
  In k ks -> fold_left put_none ks d !! k = Some None.
Proof.
  induction ks as [|k' ks IH]; intros d k H; [destruct H|]. simpl.
  destruct (in_dec string_dec k ks) as [I|N]; [apply IH; exact I|].
  destruct H as [->|H]; [|contradiction].
  rewrite fold_put_none_other by assumption. apply lookup_insert_eq.
Qed.

Lemma skipn_nth_In {A} (l : list A) : forall n i x,
  (n <= i)%nat -> nth_error l i = Some x -> In x (skipn n l).
Proof.
  induction l as [|y l IH]; intros n i x L H; [destruct i; discriminate|].
  destruct n as [|n]; [eapply nth_error_In; eassumption|].
  destruct i as [|i]; [lia|]. simpl in *. apply (IH n i); [lia | exact H].
Qed.

Lemma skipn_nth_not_In {A} (l : list A) : forall n i x,
  List.NoDup l -> (i < n)%nat -> nth_error l i = Some x -> ~ In x (skipn n l).
Proof.
  induction l as [|y l IH]; intros n i x ND L H; [destruct i; discriminate|].
  destruct n as [|n]; [lia|]. apply List.NoDup_cons_iff in ND as [Ny ND]. simpl.
  destruct i as [|i]; simpl in H.
  - injection H as ->. intros I. apply Ny.
    rewrite <- (firstn_skipn n l). apply in_or_app. right. exact I.
  - apply (IH n i); [assumption | lia | exact H].
Qed.

(** Where the names of the header are distinct, the record gives under
    the name of column [i] the cell [i] of the row, as it stands, and
    [None] where the row has no such cell. *)
Lemma record_get names row i name :
  List.NoDup names -> nth_error names i = Some name ->
  get (DictReader.record names row) name = nth_error row i.
Proof.
  intros ND Hn. unfold get, DictReader.record.
  fold put_cell. fold put_none.
  assert (i < length names)%nat as Li by (apply nth_error_Some; congruence).
  destruct (Nat.ltb_spec (length names) (length row)) as [L|L]; simpl.
  - destruct (nth_error row i) as [v|] eqn:Hr;
      [|apply nth_error_None in Hr; lia].
    rewrite (fold_put_cell_nth names row ∅ i name v ND Hn Hr). reflexivity.
  - destruct (nth_error row i) as [v|] eqn:Hr.
    + assert (i < length row)%nat as Lr by (apply nth_error_Some; congruence).
      rewrite fold_put_none_other
        by (apply (skipn_nth_not_In names (length row) i); assumption).
      rewrite (fold_put_cell_nth names row ∅ i name v ND Hn Hr). reflexivity.
    + apply nth_error_None in Hr.
      rewrite fold_put_none_in
        by (apply (skipn_nth_In names (length row) i); assumption).
      reflexivity.
Qed.

End Record.

(** * The claims *)

(** ** The tests of the repository *)

(** [test_performance_report_average]: the two files give 4.83 for the
    backend developers and 4.4 for the QA engineers, in this order. *)
Example test_performance_report_average :
  match read_employees test_fs ["employees1.csv"; "employees2.csv"] with
  | inr employees => performance_report PyFloat.of_ascii employees
  | inl e => inl e
  end = inr test_report.
Proof. vm_compute. reflexivity. Qed.

(** [test_read_employees_missing_column] *)
Example test_read_employees_missing_column :
  read_employees test_fs ["bad.csv"] =
    inl (Raise (MissingColumns "bad.csv" "performance")).
Proof. reflexivity. Qed.

(** [test_cli_unknown_file], as far as [read_employees] goes. *)
Example test_cli_unknown_file :
  read_employees test_fs ["nope.csv"] = inl (Raise (FileNotFound "nope.csv")) /\
  message PyStr.repr (FileNotFound "nope.csv") = "Файл 'nope.csv' не найден.".
Proof. split; reflexivity. Qed.

(** ** Ingestion *)

(** C3. For a list of files that can all be opened and have both required
    columns in their headers, with a data row in at least one of them,
    [read_employees] returns the records of the files in the order of the
    paths, those of a file in the order of its rows: as many as there are
    data rows. A record gives, under the name of a column, the cell of
    the row in that column, unchanged. *)
Theorem read_employees_concatenates fs files :
  files <> [] ->
  Forall (well_formed fs) files ->
  concat (map (file_data_rows fs) files) <> [] ->
  read_employees fs files = inr (concat (map (file_records fs) files)) /\
  length (concat (map (file_records fs) files)) =
    list_sum (map (fun path => length (file_data_rows fs path)) files) /\
  (forall path names rows,
     In path files -> fs path = Rows (names :: rows) ->
     file_records fs path =
       map (DictReader.record names)
           (List.filter (fun row => negb (DictReader.is_blank row)) rows)) /\
  (forall names row i name,
     List.NoDup names -> nth_error names i = Some name ->
     get (DictReader.record names row) name = nth_error row i).
Proof.
  intros _ W D. repeat split.
  - unfold read_employees. rewrite (read_files_ok fs files W). simpl.
    destruct (concat (map (file_records fs) files)) eqn:E; [|reflexivity].
    exfalso. apply D. apply length_zero_iff_nil.
    pose proof (concat_records_length fs files) as L. rewrite E in L. simpl in L.
    clear -L. induction files as [|p files IH]; simpl in *; [reflexivity|].
    rewrite length_app. destruct (length (file_data_rows fs p)); [auto | discriminate].
  - apply concat_records_length.
  - intros path names rows _ E. unfold file_records. rewrite E. reflexivity.
  - intros names row i name. apply record_get.
Qed.

Lemma read_employees_concatenates_witness :
  read_employees test_fs ["employees1.csv"; "employees2.csv"] =
    inr (concat (map (file_records test_fs) ["employees1.csv"; "employees2.csv"])) /\
  length (concat (map (file_records test_fs) ["employees1.csv"; "employees2.csv"])) = 5%nat.
Proof.
  destruct (read_employees_concatenates test_fs ["employees1.csv"; "employees2.csv"])
    as (R & L & _).
  - discriminate.
  - repeat constructor; eexists _, _;
      (split; [reflexivity | split; simpl; tauto]).
  - discriminate.
  - split; [exact R | exact L].
Defined.

(** C4, as stated, fails when a file that stands before the one with the
    missing column fails too: the loop is left at the first file that
    fails, and the error is the one of that file. Here [nope.csv] is
    absent and [bad.csv] lacks the column [performance]. *)
Lemma missing_columns_not_first_failure :
  In "bad.csv" ["nope.csv"; "bad.csv"] /\
  (exists names rows,
     test_fs "bad.csv" = Rows (names :: rows) /\ names <> [] /\
     missing_columns names = ["performance"]) /\
  read_employees test_fs ["nope.csv"; "bad.csv"] =
    inl (Raise (FileNotFound "nope.csv")) /\
  (forall path missing_str,
     read_employees test_fs ["nope.csv"; "bad.csv"] <>
       inl (Raise (MissingColumns path missing_str))).
Proof.
  split; [simpl; tauto|]. split.
  - eexists _, _. split; [reflexivity|]. split; [discriminate | reflexivity].
  - split; [reflexivity | discriminate].
Qed.

(** C4, amended. A file whose header lacks a required column makes
    [read_employees] fail, wherever it stands in the list. When the files
    before it are well formed, the exception is the [ReportError] of
    missing columns for this file: its message holds the [repr] of the
    path and the missing names in alphabetical order, joined by a comma
    and a space. The header is checked before the rows are read, so that
    this holds as well of a file that cannot be read to its end. *)
Theorem missing_columns_fail fs files path names rows :
  In path files ->
  rows_read (fs path) = Some (names :: rows) -> names <> [] ->
  missing_columns names <> [] ->
  let missing_str := PyStr.join ", " (sorted (missing_columns names)) in
  (exists e, read_employees fs files = inl e) /\
  (forall l1 l2, files = l1 ++ path :: l2 -> Forall (well_formed fs) l1 ->
     read_employees fs files = inl (Raise (MissingColumns path missing_str))) /\
  (forall repr, message repr (MissingColumns path missing_str) =
     "В файле " +:+ repr path +:+ " отсутствуют обязательные колонки: " +:+ missing_str) /\
  missing_str =
    (if existsb (String.eqb "performance") names then "position"
     else if existsb (String.eqb "position") names then "performance"
     else "performance, position").
Proof.
  intros HI E N M missing_str.
  assert (read_file fs path = inl (Raise (MissingColumns path missing_str))) as R.
  { unfold read_file.
    destruct (fs path) as [| |rs|rs]; simpl in E; try discriminate;
      injection E as ->; simpl;
      (destruct names as [|n names]; [congruence|]);
      subst missing_str;
      destruct (missing_columns (n :: names)); congruence || reflexivity. }
  repeat split.
  - eapply read_employees_fail; eassumption.
  - intros l1 l2 -> W. apply read_employees_first_failure; assumption.
  - subst missing_str. revert M.
    unfold missing_columns, required_columns. cbn [List.filter].
    destruct (existsb (String.eqb "position") names),
      (existsb (String.eqb "performance") names); simpl; intros M;
      try reflexivity. congruence.
Qed.

Lemma missing_columns_fail_witness :
  read_employees test_fs ["employees1.csv"; "bad.csv"; "employees2.csv"] =
    inl (Raise (MissingColumns "bad.csv" "performance")) /\
  message PyStr.repr (MissingColumns "bad.csv" "performance") =
    "В файле 'bad.csv' отсутствуют обязательные колонки: performance".
Proof.
  split; [|reflexivity].
  refine (proj1 (proj2 (missing_columns_fail test_fs
            ["employees1.csv"; "bad.csv"; "employees2.csv"] "bad.csv"
            ["name"; "position"; "completed_tasks"]
            [["A"; "Backend Developer"; "10"]] _ _ _ _))
          ["employees1.csv"] ["employees2.csv"] _ _).
  - simpl. tauto.
  - reflexivity.
  - discriminate.
  - discriminate.
  - reflexivity.
  - repeat constructor. eexists _, _.
    split; [reflexivity | split; simpl; tauto].
Defined.

(** C5, as stated, fails for a path that exists and cannot be read:
    [open] raises an error that is not [FileNotFoundError], the [except]
    clause does not catch it, and what leaves [read_employees] is that
    error and no [ReportError]. *)
Lemma unreadable_file_is_no_report_error :
  (forall rows, test_fs "locked.csv" <> Rows rows) /\
  read_employees test_fs ["locked.csv"] = inl (OSError "locked.csv") /\
  (forall e, read_employees test_fs ["locked.csv"] <> inl (Raise e)).
Proof.
  repeat split; discriminate.
Qed.

(** C5, amended. An absent path makes [read_employees] fail, wherever it
    stands in the list and whatever well-formed files come with it. When
    the files before it are well formed, the exception is the
    [ReportError] of a file not found, whose message holds the [repr] of
    the path; it is a [ReportError] as the header and column failures are. *)
Theorem absent_file_fails fs files path :
  In path files -> fs path = Absent ->
  (exists e, read_employees fs files = inl e) /\
  (forall l1 l2, files = l1 ++ path :: l2 -> Forall (well_formed fs) l1 ->
     read_employees fs files = inl (Raise (FileNotFound path))) /\
  (forall repr, message repr (FileNotFound path) =
     "Файл " +:+ repr path +:+ " не найден.").
Proof.
  intros HI E.
  assert (read_file fs path = inl (Raise (FileNotFound path))) as R
      by (unfold read_file; rewrite E; reflexivity).
  repeat split.
  - eapply read_employees_fail; eassumption.
  - intros l1 l2 -> W. apply read_employees_first_failure; assumption.
Qed.

Lemma absent_file_fails_witness :
  read_employees test_fs ["employees1.csv"; "nope.csv"; "employees2.csv"] =
    inl (Raise (FileNotFound "nope.csv")) /\
  message PyStr.repr (FileNotFound "nope.csv") = "Файл 'nope.csv' не найден.".
Proof.
  split; [|reflexivity].
  refine (proj1 (proj2 (absent_file_fails test_fs
            ["employees1.csv"; "nope.csv"; "employees2.csv"] "nope.csv" _ _))
          ["employees1.csv"] ["employees2.csv"] _ _).
  - simpl. tauto.
  - reflexivity.
  - reflexivity.
  - repeat constructor. eexists _, _.
    split; [reflexivity | split; simpl; tauto].
Defined.

(** C6. When every file of the list is well formed and none has a data
    row, [read_employees] raises the [ReportError] of an empty data set.
    This exception is raised in no other case, so every file has then
    been read through; and [read_employees] never returns an empty
    list. *)
Theorem empty_dataset_iff fs files :
  (read_employees fs files = inl (Raise EmptyDataset) <->
   Forall (fun path => well_formed fs path /\ file_data_rows fs path = []) files)
  /\ (forall employees, read_employees fs files = inr employees -> employees <> []).
Proof.
  split; [split|].
  - unfold read_employees. intros H.
    destruct (read_files fs files []) as [e|l] eqn:R.
    + injection H as ->. exfalso.
      apply read_files_inl in R as (path & _ & R).
      exact (read_file_not_empty_dataset fs path R).
    + destruct l; [|discriminate].
      pose proof (read_files_inr fs files [] [] R) as W.
      rewrite (read_files_ok fs files W) in R. simpl in R. injection R as R.
      clear H. induction W as [|p files Wp W IH]; [constructor|].
      simpl in R. apply app_eq_nil in R as [Rp R].
      constructor; [|apply IH; exact R]. split; [exact Wp|].
      apply length_zero_iff_nil. rewrite <- file_records_length, Rp. reflexivity.
  - intros H. unfold read_employees.
    assert (Forall (well_formed fs) files) as W
        by (eapply List.Forall_impl; [|exact H]; intros p [Wp _]; exact Wp).
    rewrite (read_files_ok fs files W). simpl.
    replace (concat (map (file_records fs) files)) with (@nil EmployeeRecord);
      [reflexivity|].
    symmetry. clear W. induction H as [|p files [_ Hp] _ IH]; [reflexivity|].
    simpl. rewrite IH, app_nil_r.
    apply length_zero_iff_nil. rewrite file_records_length, Hp. reflexivity.
  - intros employees H E. subst employees. unfold read_employees in H.
    destruct (read_files fs files []) as [e|[|r l]]; discriminate.
Qed.

Lemma empty_dataset_iff_witness :
  read_employees test_fs ["header.csv"; "header.csv"] = inl (Raise EmptyDataset) /\
  read_employees test_fs [] = inl (Raise EmptyDataset).
Proof.
  split; apply (proj1 (empty_dataset_iff test_fs _)).
  - repeat constructor; eexists _, _;
      (split; [reflexivity | split; simpl; tauto]).
  - constructor.
Defined.

(** C8, as stated, fails when a file that stands before the one without
    a header fails too: the error is the one of the first file that
    fails. Here [bad.csv] lacks a column and [empty.csv] has no line. *)
Lemma missing_header_not_first_failure :
  In "empty.csv" ["bad.csv"; "empty.csv"] /\
  test_fs "empty.csv" = Rows [] /\
  read_employees test_fs ["bad.csv"; "empty.csv"] =
    inl (Raise (MissingColumns "bad.csv" "performance")) /\
  (forall path,
     read_employees test_fs ["bad.csv"; "empty.csv"] <>
       inl (Raise (MissingHeader path))).
Proof.
  split; [simpl; tauto|]. split; [reflexivity|].
  split; [reflexivity | discriminate].
Qed.

(** C8, amended. A file without a header (no row at all, or a blank
    first line) makes [read_employees] fail, wherever it stands in the
    list. When the files before it are well formed, the exception is the
    [ReportError] of a missing header, whose message holds the [repr] of
    the path. A blank first line is found before the rest is read, so
    that this holds as well of a file that cannot be read to its end. *)
Theorem missing_header_fails fs files path rows :
  In path files ->
  fs path = Rows rows /\ DictReader.fieldnames rows = None \/
  rows_read (fs path) = Some rows /\ DictReader.fieldnames rows = Some [] ->
  (exists e, read_employees fs files = inl e) /\
  (forall l1 l2, files = l1 ++ path :: l2 -> Forall (well_formed fs) l1 ->
     read_employees fs files = inl (Raise (MissingHeader path))) /\
  (forall repr, message repr (MissingHeader path) =
     "Файл " +:+ repr path +:+ " не содержит заголовков.").
Proof.
  intros HI F.
  assert (read_file fs path = inl (Raise (MissingHeader path))) as R.
  { unfold read_file. destruct F as [[E F]|[E F]].
    - rewrite E, F. reflexivity.
    - destruct (fs path) as [| |rs|rs]; simpl in E; try discriminate;
        injection E as ->; rewrite F; reflexivity. }
  repeat split.
  - eapply read_employees_fail; eassumption.
  - intros l1 l2 -> W. apply read_employees_first_failure; assumption.
Qed.

Lemma missing_header_fails_witness :
  read_employees test_fs ["employees1.csv"; "empty.csv"] =
    inl (Raise (MissingHeader "empty.csv")) /\
  message PyStr.repr (MissingHeader "empty.csv") =
    "Файл 'empty.csv' не содержит заголовков.".
Proof.
  split; [|reflexivity].
  refine (proj1 (proj2 (missing_header_fails test_fs
            ["employees1.csv"; "empty.csv"] "empty.csv" [] _ _))
          ["employees1.csv"] [] _ _).
  - simpl. tauto.
  - left. split; reflexivity.
  - reflexivity.
  - repeat constructor. eexists _, _.
    split; [reflexivity | split; simpl; tauto].
Defined.

(** ** Aggregation *)

(** C1. For every sequence of records, the report has exactly one row for
    each distinct trimmed, non-empty position key of the records that are
    not skipped; the value of the row is the sum of the parsed performances
    of the records with that key divided by their number and rounded to
    two decimals ([expected_row]); and the skipped records can be removed
    without changing the report. *)
Theorem performance_report_average float_of_str employees :
  (positions float_of_str employees <> [] ->
   exists rows,
     performance_report float_of_str employees =
       inr {| headers := ["position"; "performance"]; rows := rows |} /\
     Permutation rows
       (map (expected_row float_of_str employees) (positions float_of_str employees)))
  /\ List.NoDup (positions float_of_str employees)
  /\ (forall p, In p (positions float_of_str employees) <->
                exists row, In row employees /\ skipped float_of_str row = false /\
                            option_map PyStr.strip (get row "position") = Some p)
  /\ performance_report float_of_str employees =
     performance_report float_of_str
       (List.filter (fun row => negb (skipped float_of_str row)) employees).
Proof.
  split; [|split; [|split]].
  - intros H.
    destruct (performance_report_outcome float_of_str employees)
      as [[E _]|[_ (rs & S & E)]].
    + apply positions_totals in E. contradiction.
    + exists rs. split; [exact E|].
      apply (performance_report_rows float_of_str employees _ E).
  - apply NoDup_ListNoDup, NoDup_remove_dups.
  - intros p. unfold positions.
    rewrite <- list_elem_of_In, elem_of_remove_dups, list_elem_of_omap.
    split; intros (row & Hrow & H); exists row.
    + apply list_elem_of_In in Hrow. unfold position_of in H.
      destruct (skipped float_of_str row); [discriminate | auto].
    + destruct H as [S H]. split; [apply list_elem_of_In; assumption|].
      unfold position_of. rewrite S. exact H.
  - apply performance_report_filter.
Qed.

Lemma performance_report_average_witness :
  exists rows,
    performance_report PyFloat.of_ascii test_employees =
      inr {| headers := ["position"; "performance"]; rows := rows |} /\
    Permutation rows
      (map (expected_row PyFloat.of_ascii test_employees)
         (positions PyFloat.of_ascii test_employees)).
Proof.
  apply (performance_report_average PyFloat.of_ascii test_employees).
  vm_compute. discriminate.
Defined.

(** C7. [performance_report] raises the [ReportError] of no valid data
    exactly when every record is skipped. Otherwise it returns a report,
    and it raises nothing else; the skipped records of an input are left
    out without any effect on the outcome. *)
Theorem no_valid_data_iff_all_skipped float_of_str employees :
  (performance_report float_of_str employees = inl (Raise NoValidData) <->
   Forall (fun row => skipped float_of_str row = true) employees)
  /\ (Exists (fun row => skipped float_of_str row = false) employees ->
      exists res, performance_report float_of_str employees = inr res)
  /\ (forall e, performance_report float_of_str employees = inl e ->
                e = Raise NoValidData)
  /\ performance_report float_of_str employees =
     performance_report float_of_str
       (List.filter (fun row => negb (skipped float_of_str row)) employees).
Proof.
  pose proof (performance_report_outcome float_of_str employees) as O.
  pose proof (totals_nil_skipped float_of_str employees) as T.
  split; [|split; [|split]].
  - destruct O as [[E R]|[N (rs & _ & R)]]; rewrite R.
    + split; [intros _; apply T; exact E | reflexivity].
    + split; [discriminate | intros H; apply T in H; contradiction].
  - intros X. destruct O as [[E R]|[N (rs & _ & R)]].
    + apply T in E. apply Exists_exists in X as (row & Hrow & S).
      rewrite List.Forall_forall in E. apply list_elem_of_In in Hrow.
      specialize (E row Hrow). congruence.
    + eexists. exact R.
  - intros e H. destruct O as [[_ R]|[_ (rs & _ & R)]]; congruence.
  - apply performance_report_filter.
Qed.

Lemma no_valid_data_iff_all_skipped_witness :
  (exists res, performance_report PyFloat.of_ascii test_employees = inr res) /\
  performance_report PyFloat.of_ascii [employee "" "5.0"; employee "Intern" "n/a"]
    = inl (Raise NoValidData).
Proof.
  split.
  - apply (no_valid_data_iff_all_skipped PyFloat.of_ascii test_employees).
    apply Exists_cons_hd. reflexivity.
  - apply (proj1 (no_valid_data_iff_all_skipped PyFloat.of_ascii _)).
    repeat constructor.
Defined.

(** C9. A report that [performance_report] returns has the headers
    [position] and [performance], and each of its rows is a position name
    followed by an average, so that it is as long as the headers. *)
Theorem report_rows_match_headers float_of_str employees res :
  performance_report float_of_str employees = inr res ->
  headers res = ["position"; "performance"] /\
  Forall (fun row => length row = length (headers res) /\ is_report_row row)
    (rows res).
Proof.
  intros H. pose proof (report_rows_shape float_of_str employees res H) as S.
  apply performance_report_rows in H as (-> & _ & _).
  split; [reflexivity|].
  apply List.Forall_forall. intros row Hrow. rewrite List.Forall_forall in S.
  split; [|auto]. destruct (S row Hrow) as (p & x & ->). reflexivity.
Qed.

Lemma report_rows_match_headers_witness :
  exists res,
    performance_report PyFloat.of_ascii test_employees = inr res /\
    headers res = ["position"; "performance"] /\
    Forall (fun row => length row = length (headers res) /\ is_report_row row)
      (rows res).
Proof.
  eexists. split; [vm_compute; reflexivity|].
  apply (report_rows_match_headers PyFloat.of_ascii test_employees).
  vm_compute. reflexivity.
Defined.

(** ** Order of the rows *)

(** C2, as stated, fails. The records [A: nan] and [B: 1] give a report
    with the rows [A, nan] and [B, 1.0], in this order. Neither row
    precedes the other, so the rows are not in descending order of their
    averages and the comparison is not total on them. *)
Lemma nan_report_not_sorted :
  performance_report PyFloat.of_ascii nan_employees = inr nan_report /\
  precedes [Text "A"; Number nan] [Text "B"; Number 1%float] = false /\
  precedes [Text "B"; Number 1%float] [Text "A"; Number nan] = false /\
  ~ sorted_report (rows nan_report) /\
  ~ total_order_on (rows nan_report).
Proof.
  split; [vm_compute; reflexivity|].
  assert (precedes [Text "A"; Number nan] [Text "B"; Number 1%float] = false) as AB
      by reflexivity.
  assert (precedes [Text "B"; Number 1%float] [Text "A"; Number nan] = false) as BA
      by reflexivity.
  repeat split; try assumption.
  - intros S. apply StronglySorted_inv in S as [_ F].
    apply Forall_cons_iff in F as [F _]. congruence.
  - intros (_ & _ & _ & T).
    destruct (T [Text "A"; Number nan] [Text "B"; Number 1%float]) as [H|H];
      simpl; auto; congruence.
Qed.

(** C2, amended. When no average of the returned report is NaN, the rows
    are sorted by descending average and then by ascending name, this
    comparison is a total order on the rows, and of two rows with equal
    averages the one that comes first has the smaller name. *)
Theorem report_sorted_without_nan float_of_str employees res :
  performance_report float_of_str employees = inr res ->
  Forall (fun row => no_nan row = true) (rows res) ->
  sorted_report (rows res) /\
  total_order_on (rows res) /\
  (forall i j p1 x1 p2 x2, (i < j)%nat ->
     nth_error (rows res) i = Some [Text p1; Number x1] ->
     nth_error (rows res) j = Some [Text p2; Number x2] ->
     (x1 =? x2)%float = true -> PyStr.lt p1 p2 = true).
Proof.
  intros H N.
  pose proof (report_sorted float_of_str employees res H N) as Sorted.
  split; [exact Sorted|]. split.
  - exact (report_total_order float_of_str employees res H N).
  - intros i j p1 x1 p2 x2 L Hi Hj E.
    pose proof (sorted_nth _ _ Sorted i j _ _ L Hi Hj) as C. simpl in C.
    assert ((x2 <? x1)%float = false) as NL.
    { destruct (is_nan x1) eqn:N1; [apply FloatOrderFacts.ltb_nan_r; exact N1|].
      destruct (is_nan x2) eqn:N2; [apply FloatOrderFacts.ltb_nan_l; exact N2|].
      apply (FloatOrderFacts.eqb_rank x1 x2 N1 N2) in E.
      destruct (x2 <? x1)%float eqn:L'; [|reflexivity].
      apply (FloatOrderFacts.ltb_rank x2 x1 N2 N1) in L'.
      rewrite E, KeyOrderFacts.lex_refl in L'. discriminate. }
    rewrite NL, E in C. simpl in C.
    apply StrOrder.ltb_lt. apply StrOrder.leb_le in C.
    destruct (String.compare p1 p2) eqn:Cmp; [|reflexivity|congruence].
    exfalso. apply String.compare_eq_iff in Cmp. subst p2.
    assert (x1 = x2) as ->
        by (eapply (report_rows_unique float_of_str employees res p1);
            eauto using nth_error_In).
    pose proof (report_rows_NoDup float_of_str employees res H) as ND.
    rewrite NoDup_nth_error in ND. specialize (ND i j).
    rewrite Hi, Hj in ND.
    assert (i < length (rows res))%nat as Li
        by (apply nth_error_Some; rewrite Hi; discriminate).
    specialize (ND Li eq_refl). lia.
Qed.

Lemma report_sorted_without_nan_witness :
  performance_report PyFloat.of_ascii test_employees = inr test_report /\
  sorted_report (rows test_report) /\ total_order_on (rows test_report).
Proof.
  assert (performance_report PyFloat.of_ascii test_employees = inr test_report) as H
      by (vm_compute; reflexivity).
  split; [exact H|].
  destruct (report_sorted_without_nan PyFloat.of_ascii test_employees test_report H)
    as (S & O & _); [|split; [exact S | exact O]].
  repeat constructor.
Defined.

(** C10. There are inputs with the performance [nan] or [inf] that are not
    skipped. The record [A: nan] is counted, the average reported for [A]
    is NaN, the sort key of that row holds a NaN, and the comparison of
    this key with the key of the row [B] is false in both directions. With
    [inf] the average of [A] is infinite. *)
Theorem nan_and_inf_are_averaged :
  (exists employees row res x k,
     In row employees /\ get row "performance" = Some "nan" /\
     skipped PyFloat.of_ascii row = false /\
     performance_report PyFloat.of_ascii employees = inr res /\
     In [Text "A"; Number x] (rows res) /\ is_nan x = true /\
     expected_row PyFloat.of_ascii employees "A" = [Text "A"; Number x] /\
     sort_key [Text "A"; Number x] = Some k /\ is_nan (fst k) = true /\
     decorate (rows res) = Some [(k, [Text "A"; Number x]);
                                 (((-1)%float, "B"), [Text "B"; Number 1%float])] /\
     key_lt k ((-1)%float, "B") = false /\ key_lt ((-1)%float, "B") k = false)
  /\
  (exists employees row res,
     In row employees /\ get row "performance" = Some "inf" /\
     skipped PyFloat.of_ascii row = false /\
     performance_report PyFloat.of_ascii employees = inr res /\
     rows res = [[Text "A"; Number infinity]; [Text "B"; Number 1%float]] /\
     sort_key [Text "A"; Number infinity] = Some (neg_infinity, "A")).
Proof.
  split.
  - exists nan_employees, (employee "A" "nan"),
      {| headers := ["position"; "performance"];
         rows := [[Text "A"; Number nan]; [Text "B"; Number 1%float]] |},
      nan, ((- nan)%float, "A").
    repeat split; try (vm_compute; reflexivity); simpl; auto.
  - exists inf_employees, (employee "A" "inf"),
      {| headers := ["position"; "performance"];
         rows := [[Text "A"; Number infinity]; [Text "B"; Number 1%float]] |}.
    repeat split; try (vm_compute; reflexivity); simpl; auto.
Qed.

(** * Further properties *)

(** ** Ingestion *)

Section MoreIngestion.

Variable fs : filesystem.

Lemma read_employees_inr files employees :
  read_employees fs files = inr employees ->
  Forall (well_formed fs) files /\
  employees = concat (map (file_records fs) files) /\ employees <> [].
Proof.
  unfold read_employees. intros H.
  destruct (read_files fs files []) as [e|l] eqn:R; [discriminate|].
  pose proof (read_files_inr fs files [] l R) as W.
  rewrite (read_files_ok fs files W) in R. simpl in R. injection R as <-.
  destruct (concat (map (file_records fs) files)); [discriminate|].
  injection H as <-. repeat split; [exact W | discriminate].
Qed.

Lemma read_employees_well_formed files :
  Forall (well_formed fs) files ->
  concat (map (file_records fs) files) <> [] ->
  read_employees fs files = inr (concat (map (file_records fs) files)).
Proof.
  intros W N. unfold read_employees. rewrite (read_files_ok fs files W). simpl.
  destruct (concat (map (file_records fs) files)); [contradiction | reflexivity].
Qed.

Lemma read_file_agree fs' path : fs' path = fs path -> read_file fs' path = read_file fs path.
Proof. unfold read_file. intros ->. reflexivity. Qed.

Lemma read_files_stop fs' l1 path l2 l2' e :
  read_file fs path = inl e ->
  (forall q, In q (l1 ++ [path]) -> fs' q = fs q) ->
  forall acc, read_files fs' (l1 ++ path :: l2') acc = read_files fs (l1 ++ path :: l2) acc.
Proof.
  intros E. induction l1 as [|a l1 IH]; intros A acc; simpl.
  - rewrite (read_file_agree fs' path) by (apply A; left; reflexivity).
    rewrite E. reflexivity.
  - rewrite (read_file_agree fs' a) by (apply A; left; reflexivity).
    destruct (read_file fs a); [reflexivity|].
    apply IH. intros q Hq. apply A. right. exact Hq.
Qed.

Lemma read_files_skip_empty l1 h l2 :
  well_formed fs h -> file_data_rows fs h = [] ->
  forall acc, read_files fs (l1 ++ h :: l2) acc = read_files fs (l1 ++ l2) acc.
Proof.
  intros W D. induction l1 as [|a l1 IH]; intros acc; simpl.
  - rewrite (read_file_well_formed fs h W).
    assert (file_records fs h = []) as ->
        by (apply length_zero_iff_nil; rewrite file_records_length, D; reflexivity).
    rewrite app_nil_r. reflexivity.
  - destruct (read_file fs a); [reflexivity | apply IH].
Qed.

End MoreIngestion.

(** X1. [read_employees] stops at the first file that fails: the files
    after it, and what the file system holds for them, have no part in
    the outcome. *)
Theorem read_employees_stops_at_failure fs fs' l1 path l2 l2' e :
  read_file fs path = inl e ->
  (forall q, In q (l1 ++ [path]) -> fs' q = fs q) ->
  read_employees fs' (l1 ++ path :: l2') = read_employees fs (l1 ++ path :: l2).
Proof.
  intros E A. unfold read_employees.
  rewrite (read_files_stop fs fs' l1 path l2 l2' e E A). reflexivity.
Qed.

Lemma read_employees_stops_at_failure_witness :
  read_employees (fun _ => Absent) ["nope.csv"; "other.csv"] =
  read_employees test_fs ["nope.csv"; "employees1.csv"; "bad.csv"].
Proof.
  apply (read_employees_stops_at_failure test_fs (fun _ => Absent) [] "nope.csv"
           ["employees1.csv"; "bad.csv"] ["other.csv"] (Raise (FileNotFound "nope.csv"))).
  - reflexivity.
  - intros q [<-|[]]. reflexivity.
Defined.

(** X2. A path that exists and cannot be opened makes [read_employees]
    raise the error of [open] as it is, when the files before it are well
    formed: the [except] clause converts [FileNotFoundError] alone. *)
Theorem unreadable_file_raises_oserror fs l1 path l2 :
  Forall (well_formed fs) l1 -> fs path = Unreadable ->
  read_employees fs (l1 ++ path :: l2) = inl (OSError path).
Proof.
  intros W E. apply read_employees_first_failure; [exact W|].
  unfold read_file. rewrite E. reflexivity.
Qed.

Lemma unreadable_file_raises_oserror_witness :
  read_employees test_fs ["employees1.csv"; "locked.csv"; "nope.csv"] =
    inl (OSError "locked.csv").
Proof.
  apply (unreadable_file_raises_oserror test_fs ["employees1.csv"] "locked.csv" ["nope.csv"]).
  - repeat constructor. eexists _, _.
    split; [reflexivity | split; simpl; tauto].
  - reflexivity.
Defined.

(** X3. Reading two lists of files one after the other is reading their
    concatenation: when both lists are read with success, the records of
    the concatenation are the records of the first list followed by those
    of the second. *)
Theorem read_employees_app fs l1 l2 r1 r2 :
  read_employees fs l1 = inr r1 -> read_employees fs l2 = inr r2 ->
  read_employees fs (l1 ++ l2) = inr (r1 ++ r2).
Proof.
  intros H1 H2.
  apply read_employees_inr in H1 as (W1 & -> & N1).
  apply read_employees_inr in H2 as (W2 & -> & N2).
  rewrite <- concat_app, <- map_app.
  apply read_employees_well_formed.
  - apply Forall_app. split; assumption.
  - rewrite map_app, concat_app. intros E. apply app_eq_nil in E as [E _]. contradiction.
Qed.

Lemma read_employees_app_witness :
  exists r1 r2,
    read_employees test_fs ["employees1.csv"] = inr r1 /\
    read_employees test_fs ["employees2.csv"] = inr r2 /\
    read_employees test_fs (["employees1.csv"] ++ ["employees2.csv"]) = inr (r1 ++ r2).
Proof.
  eexists _, _. split; [reflexivity|]. split; [reflexivity|].
  apply (read_employees_app test_fs ["employees1.csv"] ["employees2.csv"]); reflexivity.
Defined.

(** X4. A well-formed file without data rows can be put into the list, or
    taken out of it, at any place without a change of the outcome. *)
Theorem header_only_file_is_neutral fs l1 h l2 :
  well_formed fs h -> file_data_rows fs h = [] ->
  read_employees fs (l1 ++ h :: l2) = read_employees fs (l1 ++ l2).
Proof.
  intros W D. unfold read_employees.
  rewrite (read_files_skip_empty fs l1 h l2 W D). reflexivity.
Qed.

Lemma header_only_file_is_neutral_witness :
  read_employees test_fs (["employees1.csv"] ++ "header.csv" :: ["employees2.csv"]) =
  read_employees test_fs (["employees1.csv"] ++ ["employees2.csv"]).
Proof.
  apply (header_only_file_is_neutral test_fs ["employees1.csv"] "header.csv"
           ["employees2.csv"]).
  - eexists _, _. split; [reflexivity | split; simpl; tauto].
  - reflexivity.
Defined.

(** ** The records that reach the report *)

Section MoreRecords.
Import DictReader.

Lemma put_is_Some (d : gmap string (option string)) k k' v :
  is_Some (d !! k) -> is_Some (<[k' := v]> d !! k).
Proof.
  intros H. destruct (decide (k' = k)) as [->|N].
  - rewrite lookup_insert_eq. eauto.
  - rewrite lookup_insert_ne by assumption. exact H.
Qed.

Lemma fold_put_cell_is_Some l : forall d k,
  is_Some (d !! k) -> is_Some (fold_left put_cell l d !! k).
Proof.
  induction l as [|[k' v] l IH]; intros d k H; [exact H|]. simpl.
  apply IH. apply put_is_Some. exact H.
Qed.

Lemma fold_put_none_is_Some ks : forall d k,
  is_Some (d !! k) -> is_Some (fold_left put_none ks d !! k).
Proof.
  induction ks as [|k' ks IH]; intros d k H; [exact H|]. simpl.
  apply IH. apply put_is_Some. exact H.
Qed.

Lemma fold_put_cell_firstn names : forall row d k,
  In k (firstn (length row) names) ->
  is_Some (fold_left put_cell (combine names row) d !! k).
Proof.
  induction names as [|n names IH]; intros row d k H.
  - rewrite firstn_nil in H. destruct H.
  - destruct row as [|r row]; [destruct H|]. simpl in *.
    destruct H as [->|H]; [|apply IH; exact H].
    apply fold_put_cell_is_Some. rewrite lookup_insert_eq. eauto.
Qed.

(** Every name of the header is a key of the record. *)
Lemma record_has_key names row name :
  In name names -> is_Some (fields (record names row) !! name).
Proof.
  intros H. unfold record.
  destruct (Nat.ltb_spec (length names) (length row)) as [L|L]; simpl.
  - apply fold_put_cell_firstn. rewrite firstn_all2 by lia. exact H.
  - rewrite <- (firstn_skipn (length row) names) in H.
    apply in_app_or in H as [H|H].
    + apply fold_put_none_is_Some, fold_put_cell_firstn. exact H.
    + rewrite (fold_put_none_in _ _ _ H). eauto.
Qed.

Lemma file_records_have_keys fs path r :
  well_formed fs path -> In r (file_records fs path) ->
  is_Some (fields r !! "position") /\ is_Some (fields r !! "performance").
Proof.
  intros (names & rows & E & P & Q) H. unfold file_records in H. rewrite E in H.
  apply in_map_iff in H as (row & <- & _).
  split; apply record_has_key; assumption.
Qed.

End MoreRecords.

(** X5. Every record that [read_employees] returns has the keys
    [position] and [performance]: a lookup of a required field in the
    report finds the key, and [None] can only be the value that a short
    row leaves under it. *)
Theorem ingested_records_have_required_keys fs files employees :
  read_employees fs files = inr employees ->
  Forall (fun r => is_Some (fields r !! "position") /\
                   is_Some (fields r !! "performance")) employees.
Proof.
  intros H. apply read_employees_inr in H as (W & -> & _).
  apply List.Forall_forall. intros r Hr.
  apply in_concat in Hr as (rs & Hrs & Hr).
  apply in_map_iff in Hrs as (path & <- & Hp).
  rewrite List.Forall_forall in W.
  apply (file_records_have_keys fs path r); auto.
Qed.

Lemma ingested_records_have_required_keys_witness :
  exists employees,
    read_employees test_fs ["employees1.csv"; "employees2.csv"] = inr employees /\
    Forall (fun r => is_Some (fields r !! "position") /\
                     is_Some (fields r !! "performance")) employees.
Proof.
  eexists. split; [reflexivity|].
  apply (ingested_records_have_required_keys test_fs
           ["employees1.csv"; "employees2.csv"]).
  reflexivity.
Defined.

(** X6. A row that ends before the cell of a required column gives a
    record that the loop of [performance_report] passes over: the state
    [totals] is left as it was. The header is taken with distinct
    names. *)
Theorem short_row_changes_nothing float_of_str names row i column totals :
  List.NoDup names -> nth_error names i = Some column ->
  In column required_columns -> (length row <= i)%nat ->
  accumulate float_of_str totals (DictReader.record names row) = totals.
Proof.
  intros ND Hn Hc L.
  assert (get (DictReader.record names row) column = None) as G.
  { rewrite (record_get names row i column ND Hn). apply nth_error_None. exact L. }
  unfold accumulate, entry.
  destruct Hc as [<-|[<-|[]]]; rewrite G; [reflexivity|].
  destruct (get (DictReader.record names row) "position"); reflexivity.
Qed.

Lemma short_row_changes_nothing_witness :
  accumulate PyFloat.of_ascii [("QA", (4.5%float, 1))]
    (DictReader.record ["name"; "position"; "performance"] ["A"; "QA"]) =
  [("QA", (4.5%float, 1))].
Proof.
  apply (short_row_changes_nothing PyFloat.of_ascii
           ["name"; "position"; "performance"] ["A"; "QA"] 2 "performance").
  - repeat constructor; simpl; intros H;
      repeat (destruct H as [H|H]; [discriminate|]); exact H.
  - reflexivity.
  - simpl. tauto.
  - simpl. lia.
Defined.

(** ** The aggregation *)

Section MoreAggregation.

Variable float_of_str : string -> option float.

Lemma entry_agree r r' :
  option_map PyStr.strip (get r "position") = option_map PyStr.strip (get r' "position") ->
  get r "performance" ≫= float_of_str = get r' "performance" ≫= float_of_str ->
  entry float_of_str r = entry float_of_str r'.
Proof.
  unfold entry. intros P Q.
  destruct (get r "position") as [p|], (get r' "position") as [p'|];
    simpl in P; try discriminate; [|reflexivity].
  injection P as ->.
  destruct (get r "performance") as [q|], (get r' "performance") as [q'|];
    simpl in Q; try reflexivity.
  - rewrite Q. reflexivity.
  - rewrite Q. destruct (String.eqb (PyStr.strip p') ""); reflexivity.
  - rewrite <- Q. destruct (String.eqb (PyStr.strip p') ""); reflexivity.
Qed.

Lemma count_sum_set k t c (d : Dict.t (float * Z)) :
  count_sum (Dict.set k (t, c) d) =
    count_sum d + c - match Dict.get k d with Some tc => snd tc | None => 0 end.
Proof.
  induction d as [|[k' [t' c']] d IH]; simpl.
  - lia.
  - destruct (String.eqb k k'); simpl; [lia | rewrite IH; lia].
Qed.

Lemma set_Forall (P : string * (float * Z) -> Prop) k v (d : Dict.t (float * Z)) :
  P (k, v) -> Forall P d -> Forall P (Dict.set k v d).
Proof.
  intros Hv. induction 1 as [|[k' v'] d H F IH]; simpl.
  - repeat constructor. exact Hv.
  - destruct (String.eqb k k'); constructor; assumption.
Qed.

Lemma get_Forall (P : string * (float * Z) -> Prop) k v (d : Dict.t (float * Z)) :
  Forall P d -> Dict.get k d = Some v -> P (k, v).
Proof.
  induction 1 as [|[k' v'] d H _ IH]; simpl; [discriminate|].
  destruct (String.eqb_spec k k') as [->|N]; [|exact IH].
  intros E. injection E as <-. exact H.
Qed.

Lemma accumulate_counts employees : forall totals,
  Forall (fun item => 1 <= snd (snd item)) totals ->
  Forall (fun item => 1 <= snd (snd item))
    (fold_left (accumulate float_of_str) employees totals) /\
  count_sum (fold_left (accumulate float_of_str) employees totals) =
    count_sum totals +
    Z.of_nat (length (List.filter (fun r => negb (skipped float_of_str r)) employees)).
Proof.
  induction employees as [|row l IH]; intros totals H; simpl.
  - split; [exact H | lia].
  - unfold accumulate at 2 4.
    destruct (entry float_of_str row) as [[p x]|] eqn:E.
    + assert (skipped float_of_str row = false) as ->.
      { destruct (skipped float_of_str row) eqn:S; [|reflexivity].
        apply entry_skipped in S. congruence. }
      destruct (Dict.get p totals) as [[t c]|] eqn:G.
      * pose proof (get_Forall _ p (t, c) totals H G) as Hc. simpl in Hc.
        destruct (IH (Dict.set p ((t + x)%float, c + 1) totals)) as [F S].
        { apply set_Forall; [simpl; lia | exact H]. }
        split; [exact F|]. rewrite S, count_sum_set, G. simpl length. simpl. lia.
      * destruct (IH (Dict.set p ((0 + x)%float, 0 + 1) totals)) as [F S].
        { apply set_Forall; [simpl; lia | exact H]. }
        split; [exact F|]. rewrite S, count_sum_set, G. simpl length. lia.
    + apply entry_skipped in E. rewrite E. simpl. apply IH. exact H.
Qed.

Lemma in_report_rows employees res p x :
  performance_report float_of_str employees = inr res ->
  In [Text p; Number x] (rows res) <->
  performances float_of_str p employees <> [] /\ x = average float_of_str p employees.
Proof.
  intros H. apply performance_report_rows in H as (_ & _ & P).
  rewrite performances_positions. split.
  - intros I. apply (Permutation_in _ P) in I.
    apply in_map_iff in I as (q & E & Hq). unfold expected_row in E.
    injection E as -> <-. split; [exact Hq | reflexivity].
  - intros [Hp ->]. apply (Permutation_in _ (Permutation_sym P)).
    apply in_map_iff. exists p. split; [reflexivity | exact Hp].
Qed.

End MoreAggregation.

Section MoreReport.

Variable float_of_str : string -> option float.

Lemma position_of_filter employees :
  length (omap (position_of float_of_str) employees) =
  length (List.filter (fun r => negb (skipped float_of_str r)) employees).
Proof.
  induction employees as [|r l IH]; [reflexivity|]. simpl.
  destruct (position_of float_of_str r) as [p|] eqn:P;
    destruct (skipped float_of_str r) eqn:S; simpl.
  - unfold position_of in P. rewrite S in P. discriminate.
  - f_equal. exact IH.
  - exact IH.
  - unfold position_of in P. rewrite S in P. unfold skipped in S.
    destruct (get r "position"); discriminate.
Qed.

Lemma positions_length employees :
  (length (positions float_of_str employees) <=
   length (List.filter (fun r => negb (skipped float_of_str r)) employees))%nat.
Proof.
  rewrite <- position_of_filter. unfold positions.
  apply NoDup_incl_length.
  - apply NoDup_ListNoDup, NoDup_remove_dups.
  - intros p Hp. rewrite <- list_elem_of_In in Hp |- *.
    rewrite elem_of_remove_dups in Hp. exact Hp.
Qed.

Lemma performance_of_other p r :
  position_of float_of_str r <> Some p -> performance_of float_of_str p r = None.
Proof.
  unfold performance_of. destruct (position_of float_of_str r) as [q|]; [|reflexivity].
  intros N. destruct (String.eqb_spec q p) as [->|]; [congruence | reflexivity].
Qed.

Lemma performances_insert p l1 extra l2 :
  Forall (fun r => position_of float_of_str r <> Some p) extra ->
  performances float_of_str p (l1 ++ extra ++ l2) = performances float_of_str p (l1 ++ l2).
Proof.
  intros H. unfold performances. rewrite !omap_app. f_equal.
  replace (omap (performance_of float_of_str p) extra) with (@nil float); [reflexivity|].
  symmetry. induction H as [|r extra Hr _ IH]; [reflexivity|].
  simpl. rewrite (performance_of_other p r Hr). exact IH.
Qed.

End MoreReport.

(** X7. [performance_report] reads two things of a record: its position
    without the surrounding whitespace, and the number that its
    performance parses to. Two sequences of records that agree on these,
    record by record, give the same outcome: the other columns, the
    whitespace around a position and the spelling of a number have no
    effect. *)
Theorem report_reads_two_fields float_of_str employees employees' :
  Forall2 (fun r r' =>
      option_map PyStr.strip (get r "position") =
        option_map PyStr.strip (get r' "position") /\
      get r "performance" ≫= float_of_str = get r' "performance" ≫= float_of_str)
    employees employees' ->
  performance_report float_of_str employees =
  performance_report float_of_str employees'.
Proof.
  intros H. unfold performance_report.
  assert (forall totals,
            fold_left (accumulate float_of_str) employees totals =
            fold_left (accumulate float_of_str) employees' totals) as ->;
    [|reflexivity].
  induction H as [|r r' l l' [P Q] _ IH]; intros totals; simpl; [reflexivity|].
  unfold accumulate at 2 4. rewrite (entry_agree float_of_str r r' P Q). apply IH.
Qed.

Lemma report_reads_two_fields_witness :
  performance_report PyFloat.of_ascii
    [DictReader.record ["name"; "position"; "performance"] ["A"; " QA "; "4.50"]] =
  performance_report PyFloat.of_ascii [employee "QA" "4.5"].
Proof.
  apply (report_reads_two_fields PyFloat.of_ascii).
  repeat constructor; vm_compute; reflexivity.
Defined.

(** X8. At the end of the loop of [performance_report] every count of
    [totals] is at least 1, so that no average divides by zero, and the
    counts add up to the number of the records that are not skipped: each
    of them is counted once. *)
Theorem counts_are_positive_and_complete float_of_str employees :
  let totals := fold_left (accumulate float_of_str) employees [] in
  Forall (fun item => 1 <= snd (snd item)) totals /\
  count_sum totals =
    Z.of_nat (length (List.filter (fun r => negb (skipped float_of_str r)) employees)).
Proof.
  destruct (accumulate_counts float_of_str employees [] (List.Forall_nil _)) as [F S].
  split; [exact F|]. rewrite S. reflexivity.
Qed.

(** X9. In a report that [performance_report] returns no two rows have
    the same name, no name is empty, and the rows are at least one and at
    most as many as the records that are not skipped. *)
Theorem report_names_are_distinct float_of_str employees res :
  performance_report float_of_str employees = inr res ->
  List.NoDup (map row_name (rows res)) /\
  Forall (fun row => exists p, row_name row = Some p /\ p <> "") (rows res) /\
  (1 <= length (rows res) <=
   length (List.filter (fun r => negb (skipped float_of_str r)) employees))%nat.
Proof.
  intros H.
  pose proof (performance_report_rows float_of_str employees res H) as (_ & _ & P).
  assert (map row_name (map (expected_row float_of_str employees)
                          (positions float_of_str employees)) =
          map Some (positions float_of_str employees)) as E
      by (rewrite map_map; reflexivity).
  repeat split.
  - apply (Permutation_NoDup (Permutation_sym (Permutation_map row_name P))).
    rewrite E. apply Injective_map_NoDup; [intros p q; congruence|].
    apply NoDup_ListNoDup, NoDup_remove_dups.
  - apply (Permutation_Forall (Permutation_sym P)).
    apply List.Forall_forall. intros row Hrow.
    apply in_map_iff in Hrow as (p & <- & Hp). exists p. split; [reflexivity|].
    unfold positions in Hp.
    rewrite <- list_elem_of_In, elem_of_remove_dups, list_elem_of_omap in Hp.
    destruct Hp as (r & _ & Hr).
    exact (position_nonempty float_of_str r p Hr).
  - rewrite (Permutation_length P), length_map.
    destruct (positions float_of_str employees) eqn:N; [|simpl; lia].
    apply positions_totals in N.
    destruct (performance_report_outcome float_of_str employees)
      as [[_ R]|[T _]]; congruence.
  - rewrite (Permutation_length P), length_map. apply positions_length.
Qed.

Lemma report_names_are_distinct_witness :
  List.NoDup (map row_name (rows test_report)) /\
  (1 <= length (rows test_report) <= 5)%nat.
Proof.
  assert (performance_report PyFloat.of_ascii test_employees = inr test_report) as H
      by (vm_compute; reflexivity).
  destruct (report_names_are_distinct PyFloat.of_ascii test_employees test_report H)
    as (N & _ & L).
  split; [exact N | exact L].
Defined.

(** X10. Records that are skipped or belong to other positions, put in at
    any place of the input, leave the row of a position as it was: the
    report still succeeds, and it holds the same row for that position. *)
Theorem other_records_leave_row float_of_str l1 extra l2 res p :
  Forall (fun r => position_of float_of_str r <> Some p) extra ->
  performance_report float_of_str (l1 ++ l2) = inr res ->
  exists res',
    performance_report float_of_str (l1 ++ extra ++ l2) = inr res' /\
    forall x, In [Text p; Number x] (rows res') <-> In [Text p; Number x] (rows res).
Proof.
  intros X H.
  destruct (performance_report_outcome float_of_str (l1 ++ extra ++ l2))
    as [[T _]|[_ (rs & _ & R)]].
  - exfalso. apply totals_nil_skipped in T.
    apply Forall_app in T as [T1 T2]. apply Forall_app in T2 as [_ T2].
    assert (totals_of float_of_str (l1 ++ l2) = [])
      as T' by (apply totals_nil_skipped, Forall_app; split; assumption).
    destruct (performance_report_outcome float_of_str (l1 ++ l2))
      as [[_ R]|[N _]]; congruence.
  - eexists. split; [exact R|]. intros x.
    rewrite (in_report_rows float_of_str _ _ p x R).
    rewrite (in_report_rows float_of_str _ _ p x H).
    unfold average. rewrite (performances_insert float_of_str p l1 extra l2 X).
    reflexivity.
Qed.

Lemma other_records_leave_row_witness :
  exists res',
    performance_report PyFloat.of_ascii
      ([employee "QA" "4.5"] ++ [employee "Dev" "5"; employee "" "1"] ++
       [employee "QA" "4.3"]) = inr res' /\
    forall x, In [Text "QA"; Number x] (rows res') <->
              In [Text "QA"; Number x] [[Text "QA"; Number 4.4%float]].
Proof.
  apply (other_records_leave_row PyFloat.of_ascii [employee "QA" "4.5"]
           [employee "Dev" "5"; employee "" "1"] [employee "QA" "4.3"]
           {| headers := ["position"; "performance"];
              rows := [[Text "QA"; Number 4.4%float]] |} "QA").
  - repeat constructor; vm_compute; discriminate.
  - vm_compute. reflexivity.
Defined.

(** ** The command line *)

Lemma append_assoc (a b c : string) : (a +:+ b) +:+ c = a +:+ b +:+ c.
Proof.
  induction a as [|x a IH]; [reflexivity|].
  change (String x ((a +:+ b) +:+ c) = String x (a +:+ b +:+ c)).
  f_equal. exact IH.
Qed.

Lemma substring_here sub before after : substring sub (before +:+ sub +:+ after).
Proof. exists before, after. reflexivity. Qed.

Lemma substring_trans a b c : substring a b -> substring b c -> substring a c.
Proof.
  intros (p1 & q1 & ->) (p2 & q2 & ->). exists (p2 +:+ p1), (q1 +:+ q2).
  rewrite !append_assoc. reflexivity.
Qed.

Lemma range_from_one n : range 1 (Z.of_nat n + 1) = map Z.of_nat (seq 1 n).
Proof.
  unfold range. replace (Z.to_nat (Z.of_nat n + 1 - 1)) with n by lia.
  rewrite <- seq_shift, map_map. apply map_ext. intros i. lia.
Qed.

Section MoreCli.

Variable float_of_str : string -> option float.
Variable repr : string -> string.
Variable parse_args : list string -> outcome + Namespace.t.
Variable format_usage prog : string.
Variable tabulate : list (list pyobj) -> list string -> list Z -> string.
Variable fs : filesystem.

(** The names that the parser of [create_parser] accepts for [--report]. *)
Lemma report_choices a cs :
  In a (arguments (create_parser float_of_str)) ->
  flag a = "--report" -> choices a = Some cs -> cs = ["performance"].
Proof.
  intros [<-|[<-|[]]] F C; simpl in F, C; [discriminate|].
  injection C as <-. reflexivity.
Qed.

Lemma read_employees_oserror files path :
  read_employees fs files = inl (OSError path) -> In path files /\ fs path = Unreadable.
Proof.
  unfold read_employees. intros H.
  destruct (read_files fs files []) as [e|[|r l]] eqn:R; try discriminate.
  injection H as ->. apply read_files_inl in R as (q & Hq & R).
  unfold read_file in R.
  destruct (fs q) as [| |[|[|n names] rows]|[|[|n names] rows]] eqn:E;
    try discriminate.
  - injection R as ->. auto.
  - simpl in R. destruct (missing_columns (n :: names)); discriminate.
  - simpl in R. destruct (missing_columns (n :: names)); discriminate.
Qed.

Lemma read_employees_read_error files path :
  read_employees fs files = inl (ReadError path) ->
  In path files /\ exists rows, fs path = Broken rows.
Proof.
  unfold read_employees. intros H.
  destruct (read_files fs files []) as [e|[|r l]] eqn:R; try discriminate.
  injection H as ->. apply read_files_inl in R as (q & Hq & R).
  unfold read_file in R.
  destruct (fs q) as [| |[|[|n names] rows]|[|[|n names] rows]] eqn:E;
    try discriminate.
  - simpl in R. destruct (missing_columns (n :: names)); discriminate.
  - injection R as ->. eauto.
  - simpl in R. destruct (missing_columns (n :: names)); [|discriminate].
    injection R as ->. eauto.
Qed.

Lemma read_employees_no_type_error files :
  read_employees fs files <> inl TypeError.
Proof.
  unfold read_employees. intros H.
  destruct (read_files fs files []) as [e|[|r l]] eqn:R; try discriminate.
  injection H as ->. apply read_files_inl in R as (q & Hq & R).
  unfold read_file in R.
  destruct (fs q) as [| |[|[|n names] rows]|[|[|n names] rows]] eqn:E;
    try discriminate;
    simpl in R; destruct (missing_columns (n :: names)); discriminate.
Qed.

End MoreCli.

(** X11. For a report name that the parser of [create_parser] accepts,
    [generate_report] is [read_employees] followed by
    [performance_report]: the lookup in [REPORTS] finds the name, so that
    no [KeyError] leaves it, and neither does a [TypeError]. *)
Theorem generate_report_registered float_of_str fs args a cs :
  In a (arguments (create_parser float_of_str)) ->
  flag a = "--report" -> choices a = Some cs ->
  In (Namespace.report args) cs ->
  generate_report float_of_str fs args =
    match read_employees fs (Namespace.files args) with
    | inl e => inl (Raised e)
    | inr employees =>
        match performance_report float_of_str employees with
        | inl e => inl (Raised e)
        | inr result => inr result
        end
    end /\
  (forall key, generate_report float_of_str fs args <> inl (KeyError key)) /\
  generate_report float_of_str fs args <> inl (Raised TypeError).
Proof.
  intros Ha F C Hr.
  rewrite (report_choices float_of_str a cs Ha F C) in Hr.
  destruct Hr as [Hr|[]]. unfold generate_report. rewrite <- Hr. simpl.
  pose proof (read_employees_no_type_error fs (Namespace.files args)) as NT.
  destruct (read_employees fs (Namespace.files args)) as [e|employees].
  - repeat split; [discriminate | congruence].
  - destruct (performance_report_outcome float_of_str employees)
      as [[_ R]|[_ (rs & _ & R)]]; rewrite R; repeat split; discriminate.
Qed.

Lemma generate_report_registered_witness :
  generate_report PyFloat.of_ascii test_fs
    {| Namespace.files := ["employees1.csv"; "employees2.csv"];
       Namespace.report := "performance" |} = inr test_report.
Proof.
  destruct (generate_report_registered PyFloat.of_ascii test_fs
              {| Namespace.files := ["employees1.csv"; "employees2.csv"];
                 Namespace.report := "performance" |}
              {| flag := "--report"; nargs := None; required := true;
                 metavar := None; choices := Some ["performance"];
                 help := "название отчёта (например: performance)" |}
              ["performance"]) as (E & _ & _).
  - right. left. reflexivity.
  - reflexivity.
  - reflexivity.
  - left. reflexivity.
  - rewrite E. vm_compute. reflexivity.
Defined.

(** X12. With arguments that [parse_args] returns and a report name that
    the parser accepts, [main] ends in one of four ways. It prints the
    table of the report, with the rows numbered from 1, and returns. Or
    a [ReportError] was raised: it leaves with the exit status 2, the
    usage line and the message of the error on the standard error, and
    nothing printed. Or a file of the list exists and cannot be opened:
    the error of [open] leaves [main] uncaught. Or a file of the list
    opens and cannot be read to its end: the error of the reader leaves
    [main] uncaught. *)
Theorem main_outcomes float_of_str repr parse_args format_usage prog tabulate
    fs argv args a cs :
  parse_args argv = inr args ->
  In a (arguments (create_parser float_of_str)) ->
  flag a = "--report" -> choices a = Some cs ->
  In (Namespace.report args) cs ->
  let run := main float_of_str repr parse_args format_usage prog tabulate fs argv in
  (exists employees result,
     read_employees fs (Namespace.files args) = inr employees /\
     performance_report float_of_str employees = inr result /\
     run = Returned
             (tabulate (rows result) ["position"; "performance"]
                (map Z.of_nat (seq 1 (length (rows result)))) +:+ newline))
  \/
  (exists e,
     generate_report float_of_str fs args = inl (Raised (Raise e)) /\
     run = SystemExit 2
             (format_usage +:+ prog +:+ ": error: " +:+ message repr e +:+ newline))
  \/
  (exists path,
     In path (Namespace.files args) /\ fs path = Unreadable /\
     run = Uncaught (Raised (OSError path)))
  \/
  (exists path rows,
     In path (Namespace.files args) /\ fs path = Broken rows /\
     run = Uncaught (Raised (ReadError path))).
Proof.
  intros P Ha F C Hr run.
  destruct (generate_report_registered float_of_str fs args a cs Ha F C Hr)
    as (G & _ & _).
  subst run. unfold main. rewrite P.
  destruct (read_employees fs (Namespace.files args)) as [e|employees] eqn:R.
  - rewrite G. destruct e as [e|path|path|].
    + right. left. exists e. split; reflexivity.
    + right. right. left. exists path.
      destruct (read_employees_oserror fs _ _ R) as [I U].
      repeat split; assumption.
    + right. right. right.
      destruct (read_employees_read_error fs _ _ R) as [I [rows U]].
      exists path, rows. repeat split; assumption.
    + exfalso. exact (read_employees_no_type_error fs _ R).
  - destruct (performance_report_outcome float_of_str employees)
      as [[_ E]|[_ (rs & _ & E)]]; rewrite G, E.
    + right. left. exists NoValidData. split; reflexivity.
    + left. exists employees, {| headers := ["position"; "performance"]; rows := rs |}.
      repeat split; [exact E|]. unfold print_report. simpl.
      rewrite range_from_one. reflexivity.
Qed.

Lemma main_outcomes_witness :
  main PyFloat.of_ascii PyStr.repr (parse_plain ["performance"])
    "usage: main.py" "main.py" (fun _ _ _ => "") test_fs
    ["--files"; "header.csv"; "--report"; "performance"] =
  SystemExit 2
    ("usage: main.py" +:+ "main.py" +:+ ": error: " +:+
     "Во всех файлах нет данных (только заголовки)." +:+ newline).
Proof.
  destruct (main_outcomes PyFloat.of_ascii PyStr.repr (parse_plain ["performance"])
              "usage: main.py" "main.py" (fun _ _ _ => "") test_fs
              ["--files"; "header.csv"; "--report"; "performance"]
              {| Namespace.files := ["header.csv"]; Namespace.report := "performance" |}
              {| flag := "--report"; nargs := None; required := true;
                 metavar := None; choices := Some ["performance"];
                 help := "название отчёта (например: performance)" |}
              ["performance"]) as [H|[H|[H|H]]].
  - reflexivity.
  - right. left. reflexivity.
  - reflexivity.
  - reflexivity.
  - left. reflexivity.
  - destruct H as (employees & result & R & _). discriminate R.
  - destruct H as (e & G & R). rewrite R. injection G as <-. reflexivity.
  - destruct H as (path & [<-|[]] & U & _). discriminate U.
  - destruct H as (path & rows & [<-|[]] & U & _). discriminate U.
Defined.

(** X13. When the first file that is not well formed is absent, [main]
    leaves with the exit status 2 and nothing printed, whatever report is
    asked for; the text on the standard error holds the [repr] of the
    path and the words of [test_cli_unknown_file]. *)
Theorem main_unknown_file float_of_str repr parse_args format_usage prog tabulate
    fs argv args l1 path l2 :
  parse_args argv = inr args ->
  Namespace.files args = l1 ++ path :: l2 ->
  Forall (well_formed fs) l1 -> fs path = Absent ->
  exists err,
    main float_of_str repr parse_args format_usage prog tabulate fs argv =
      SystemExit 2 err /\
    substring "не найден" err /\ substring (repr path) err.
Proof.
  intros P E W A. unfold main, generate_report. rewrite P, E.
  rewrite (read_employees_first_failure fs l1 path l2 (Raise (FileNotFound path)) W)
    by (unfold read_file; rewrite A; reflexivity).
  eexists. split; [reflexivity|].
  assert (forall sub, substring sub (message repr (FileNotFound path)) ->
            substring sub (format_usage +:+ prog +:+ ": error: " +:+
                           message repr (FileNotFound path) +:+ newline)) as S.
  { intros sub H. apply (substring_trans _ _ _ H).
    exists (format_usage +:+ prog +:+ ": error: "), newline.
    rewrite !append_assoc. reflexivity. }
  split; apply S.
  - exists ("Файл " +:+ repr path +:+ " "), ".". simpl.
    rewrite !append_assoc. reflexivity.
  - exists "Файл ", " не найден.". reflexivity.
Qed.

Lemma main_unknown_file_witness :
  exists err,
    main PyFloat.of_ascii PyStr.repr (parse_plain ["performance"])
      "usage: main.py" "main.py" (fun _ _ _ => "") test_fs test_argv =
      SystemExit 2 err /\
    substring "не найден" err /\ substring (PyStr.repr "nope.csv") err.
Proof.
  apply (main_unknown_file PyFloat.of_ascii PyStr.repr (parse_plain ["performance"])
           "usage: main.py" "main.py" (fun _ _ _ => "") test_fs test_argv
           {| Namespace.files := ["nope.csv"]; Namespace.report := "performance" |}
           [] "nope.csv" []).
  - reflexivity.
  - reflexivity.
  - constructor.
  - reflexivity.
Defined.

(** X14. What [read_employees] raises is the error of an empty data set,
    or an error about one path of the list, decided by what the file
    system holds for that path: the file is not found; it cannot be
    opened; it has no header; its header lacks a column; or it cannot be
    read to its end, and the reader fails before it gives the header or
    after a header that holds both columns. In the last case, as in the
    second, the error is no [ReportError]. *)
Theorem read_employees_errors fs files e :
  read_employees fs files = inl e ->
  e = Raise EmptyDataset \/
  exists path,
    In path files /\
    (fs path = Absent /\ e = Raise (FileNotFound path) \/
     fs path = Unreadable /\ e = OSError path \/
     (fs path = Rows [] \/ exists rows, rows_read (fs path) = Some ([] :: rows)) /\
       e = Raise (MissingHeader path) \/
     (exists names rows,
        rows_read (fs path) = Some (names :: rows) /\ names <> [] /\
        missing_columns names <> [] /\
        e = Raise (MissingColumns path
                     (PyStr.join ", " (sorted (missing_columns names))))) \/
     (fs path = Broken [] \/
      exists names rows,
        fs path = Broken (names :: rows) /\ names <> [] /\
        missing_columns names = []) /\
       e = ReadError path).
Proof.
  unfold read_employees. intros H.
  destruct (read_files fs files []) as [e'|[|r l]] eqn:R; try discriminate.
  - injection H as ->. right.
    apply read_files_inl in R as (path & Hp & R). exists path. split; [exact Hp|].
    unfold read_file in R.
    destruct (fs path) as [| |[|[|n names] rows]|[|[|n names] rows]] eqn:E;
      simpl in R.
    + injection R as <-. left. auto.
    + injection R as <-. right. left. auto.
    + injection R as <-. right. right. left. auto.
    + injection R as <-. right. right. left. split; [right; exists rows|]; reflexivity.
    + destruct (missing_columns (n :: names)) as [|c cs] eqn:M; [discriminate|].
      injection R as <-. right. right. right. left. exists (n :: names), rows.
      rewrite M. repeat split; discriminate.
    + injection R as <-. right. right. right. right. auto.
    + injection R as <-. right. right. left. split; [right; exists rows|]; reflexivity.
    + destruct (missing_columns (n :: names)) as [|c cs] eqn:M.
      * injection R as <-. right. right. right. right.
        split; [right; exists (n :: names), rows|reflexivity].
        repeat split; [discriminate | exact M].
      * injection R as <-. right. right. right. left. exists (n :: names), rows.
        rewrite M. repeat split; discriminate.
  - injection H as <-. left. reflexivity.
Qed.

Lemma read_employees_errors_witness :
  exists path,
    In path ["employees1.csv"; "broken.csv"; "bad.csv"] /\
    exists names rows,
      broken_fs path = Broken (names :: rows) /\ names <> [] /\
      missing_columns names = [].
Proof.
  destruct (read_employees_errors broken_fs
              ["employees1.csv"; "broken.csv"; "bad.csv"] (ReadError "broken.csv"))
    as [H|(path & I & [[_ H]|[[_ H]|[[_ H]|[(n & r & _ & _ & _ & H)|[H E]]]]])];
    try discriminate H.
  - reflexivity.
  - exists path. split; [exact I|].
    destruct H as [H|H]; [|exact H].
    exfalso. injection E as <-. discriminate H.
Defined.

(** X16. A file that opens and cannot be read to its end (text that is
    not UTF-8, a field that [csv] refuses) makes [read_employees] fail,
    wherever it stands in the list. When the files before it are well
    formed and the reader fails before it gives the header, or after a
    header that holds both required columns, the error of the reader
    leaves [read_employees] as it is: no [except] clause converts it. *)
Theorem broken_file_raises_read_error fs files path rows :
  In path files -> fs path = Broken rows ->
  (exists e, read_employees fs files = inl e) /\
  (forall l1 l2, files = l1 ++ path :: l2 -> Forall (well_formed fs) l1 ->
     (forall names, DictReader.fieldnames rows = Some names ->
        In "position" names /\ In "performance" names) ->
     read_employees fs files = inl (ReadError path) /\
     forall e, read_employees fs files <> inl (Raise e)).
Proof.
  intros HI E.
  assert (exists e, read_file fs path = inl e) as [e0 R0].
  { unfold read_file. rewrite E.
    destruct rows as [|[|n names] rows]; simpl; eauto.
    destruct (missing_columns (n :: names)); eauto. }
  split; [eapply read_employees_fail; eassumption|].
  intros l1 l2 -> W H.
  assert (read_file fs path = inl (ReadError path)) as R.
  { unfold read_file. rewrite E.
    destruct rows as [|names rows]; [reflexivity|]. simpl.
    specialize (H names eq_refl).
    destruct names as [|n names]; [destruct H as [[] _]|].
    apply missing_columns_nil in H. rewrite H. reflexivity. }
  rewrite (read_employees_first_failure fs l1 path l2 _ W R).
  split; [reflexivity | discriminate].
Qed.

Lemma broken_file_raises_read_error_witness :
  read_employees broken_fs ["employees1.csv"; "broken.csv"; "nope.csv"] =
    inl (ReadError "broken.csv").
Proof.
  refine (proj1 (proj2 (broken_file_raises_read_error broken_fs
            ["employees1.csv"; "broken.csv"; "nope.csv"] "broken.csv" _ _ _)
          ["employees1.csv"] ["nope.csv"] _ _ _)).
  - simpl. tauto.
  - reflexivity.
  - reflexivity.
  - repeat constructor. eexists _, _.
    split; [reflexivity | split; simpl; tauto].
  - intros names F. injection F as <-. split; simpl; tauto.
Defined.

(** ** The names of the report *)

Section Strip.
Import PyStr.

Lemma drop_space_eq b s :
  drop_space b s =
    match space_prefix b s with
    | Some s' => drop_space b s'
    | None => s
    end.
Proof.
  destruct s as [|c s1]; [reflexivity|]. cbn [drop_space space_prefix].
  destruct (is_space1 c); [reflexivity|].
  destruct s1 as [|d s2]; [reflexivity|].
  destruct (if b then is_space2 d c else is_space2 c d); [reflexivity|].
  destruct s2 as [|e s3]; [reflexivity|].
  destruct (if b then is_space3 e d c else is_space3 c d e); reflexivity.
Qed.

Lemma space_prefix_shorter b s s' :
  space_prefix b s = Some s' -> exists w, w <> "" /\ s = w +:+ s'.
Proof.
  destruct s as [|c [|d [|e s3]]]; cbn [space_prefix];
    repeat match goal with
           | |- context [if ?x then _ else _] => destruct x
           end; intros H; try discriminate; injection H as <-.
  - exists (String c ""). split; [discriminate | reflexivity].
  - exists (String c ""). split; [discriminate | reflexivity].
  - exists (String c (String d "")). split; [discriminate | reflexivity].
  - exists (String c ""). split; [discriminate | reflexivity].
  - exists (String c (String d "")). split; [discriminate | reflexivity].
  - exists (String c (String d (String e ""))). split; [discriminate | reflexivity].
Qed.

Lemma length_append (a b : string) :
  String.length (a +:+ b) = (String.length a + String.length b)%nat.
Proof.
  induction a as [|x a IH]; [reflexivity|].
  change (S (String.length (a +:+ b)) = S (String.length a + String.length b)).
  rewrite IH. reflexivity.
Qed.

(** What [drop_space] returns is an end of its argument, and it does not
    start with a whitespace character. *)
Lemma drop_space_spec b n : forall s,
  (String.length s <= n)%nat ->
  (exists w, s = w +:+ drop_space b s) /\ space_prefix b (drop_space b s) = None.
Proof.
  induction n as [|n IH]; intros s L.
  - destruct s; [|simpl in L; lia]. split; [exists ""|]; reflexivity.
  - rewrite drop_space_eq. destruct (space_prefix b s) as [s'|] eqn:E.
    + destruct (space_prefix_shorter b s s' E) as (w & Nw & ->).
      rewrite length_append in L.
      assert (String.length w <> 0)%nat by (destruct w; [congruence | discriminate]).
      destruct (IH s') as [(w' & Hw') P]; [lia|].
      split; [|exact P]. exists (w +:+ w'). rewrite append_assoc, <- Hw'. reflexivity.
    + split; [exists ""; reflexivity | exact E].
Qed.

Lemma drop_space_fixed b s : space_prefix b s = None -> drop_space b s = s.
Proof. intros H. rewrite drop_space_eq, H. reflexivity. Qed.

(** A string that starts with a whitespace character still does so when
    it is continued. *)
Lemma space_prefix_append s s' w :
  space_prefix false s = Some s' -> space_prefix false (s +:+ w) = Some (s' +:+ w).
Proof.
  destruct s as [|c [|d [|e s3]]]; cbn [space_prefix];
    try change (String c "" +:+ w) with (String c w);
    try change (String c (String d "") +:+ w) with (String c (String d w));
    try change (String c (String d (String e s3)) +:+ w)
          with (String c (String d (String e (s3 +:+ w))));
    cbn [space_prefix];
    repeat match goal with
           | |- context [if ?x then _ else _] => destruct x
           end; intros H; try discriminate; injection H as <-; reflexivity.
Qed.

Lemma list_ascii_append (a b : string) :
  list_ascii_of_string (a +:+ b) = list_ascii_of_string a ++ list_ascii_of_string b.
Proof.
  induction a as [|x a IH]; [reflexivity|].
  change (x :: list_ascii_of_string (a +:+ b) =
          x :: (list_ascii_of_string a ++ list_ascii_of_string b)).
  rewrite IH. reflexivity.
Qed.

Lemma string_of_app (l1 l2 : list ascii) :
  string_of_list_ascii (l1 ++ l2) = string_of_list_ascii l1 +:+ string_of_list_ascii l2.
Proof.
  induction l1 as [|x l1 IH]; [reflexivity|].
  change (String x (string_of_list_ascii (l1 ++ l2)) =
          String x (string_of_list_ascii l1 +:+ string_of_list_ascii l2)).
  rewrite IH. reflexivity.
Qed.

Lemma reverse_append (a b : string) : reverse (a +:+ b) = reverse b +:+ reverse a.
Proof. unfold reverse. rewrite list_ascii_append, rev_app_distr, string_of_app. reflexivity. Qed.

Lemma reverse_involutive s : reverse (reverse s) = s.
Proof.
  unfold reverse. rewrite list_ascii_of_string_of_list_ascii, rev_involutive.
  apply string_of_list_ascii_of_string.
Qed.

(** [strip] twice is [strip] once. *)
Lemma strip_idempotent s : strip (strip s) = strip s.
Proof.
  unfold strip, lstrip. set (t := drop_space false s).
  assert (space_prefix false t = None) as Ht
      by (apply (drop_space_spec false (String.length s) s); lia).
  unfold rstrip at 2 3. set (d := drop_space true (reverse t)).
  destruct (drop_space_spec true (String.length (reverse t)) (reverse t)) as [(w & Hw) Hd];
    [lia|]. fold d in Hw, Hd.
  assert (space_prefix false (reverse d) = None) as Hu.
  { destruct (space_prefix false (reverse d)) as [r|] eqn:E; [|reflexivity].
    apply (space_prefix_append _ _ (reverse w)) in E.
    rewrite <- reverse_append, <- Hw, reverse_involutive in E. congruence. }
  rewrite (drop_space_fixed false _ Hu).
  unfold rstrip. rewrite reverse_involutive, (drop_space_fixed true d Hd). reflexivity.
Qed.

End Strip.

(** X15. The names in a report that [performance_report] returns carry no
    whitespace at either end: [strip] leaves each of them as it is. *)
Theorem report_names_are_stripped float_of_str employees res :
  performance_report float_of_str employees = inr res ->
  Forall (fun row => exists p, row_name row = Some p /\ PyStr.strip p = p) (rows res).
Proof.
  intros H. apply performance_report_rows in H as (_ & _ & P).
  apply (Permutation_Forall (Permutation_sym P)).
  apply List.Forall_forall. intros row Hrow.
  apply in_map_iff in Hrow as (p & <- & Hp). exists p. split; [reflexivity|].
  unfold positions in Hp.
  rewrite <- list_elem_of_In, elem_of_remove_dups, list_elem_of_omap in Hp.
  destruct Hp as (r & _ & Hr). unfold position_of in Hr.
  destruct (skipped float_of_str r); [discriminate|].
  destruct (get r "position") as [pos|]; [|discriminate].
  injection Hr as <-. apply strip_idempotent.
Qed.

Lemma report_names_are_stripped_witness :
  Forall (fun row => exists p, row_name row = Some p /\ PyStr.strip p = p)
    (rows test_report).
Proof.
  apply (report_names_are_stripped PyFloat.of_ascii test_employees test_report).
  vm_compute. reflexivity.
Defined.
